(** * TrueLight detection service: a shallow embedding of the Python core

    The development follows the three source files of [python-detection]:
    [color_analyzer.py], [detector.py] and [main.py].  Python values are
    modelled as follows.

    - [str] is [string]; [str.lower] lowers the ASCII letters (every label and
      profile name of the program is ASCII).
    - [int] is [Z]; lengths and shapes are [nat].
    - a [float] is held as the rational it stands for.  The quotient and the
      product of [detect_colors] are rounded to binary64 ([fl]); [round(_, 1)]
      rounds that binary value and its result is held as the tenth it prints
      as.  The other float operations (the sums and the quotient of
      [analyze_traffic_light], the scaling of the boxes in [detect]) are taken
      on the exact values.
    - a [dict] is an association list in insertion order, which is also its
      iteration order.
    - an exception is the [Raise] branch of [result].
    - an image is an [ndarray]: its two leading dimensions and the pixel at
      every position.  The colour analyser only reads a region after
      [cv2.cvtColor(_, COLOR_BGR2HSV)], a pixel-wise conversion supplied by
      OpenCV, so a pixel is held as the HSV triple OpenCV computes for it. *)

From Stdlib Require Import String Ascii List ZArith QArith Qround Qpower Lia Lqa Bool.
From Stdlib Require Import Sorted Permutation.
Import ListNotations.

Local Open Scope string_scope.
Local Open Scope Z_scope.
Local Open Scope list_scope.

Set Implicit Arguments.

(* ================================================================== *)
(** ** Python runtime: exceptions, strings, dicts, slices, numbers     *)
(* ================================================================== *)

Module Py.

Inductive exn : Type :=
| ZeroDivisionError
| ValueError
| IndexError.

Inductive result (A : Type) : Type :=
| Ok (a : A)
| Raise (e : exn).

Arguments Ok {A} a.
Arguments Raise {A} e.

Definition bind {A B : Type} (c : result A) (k : A -> result B) : result B :=
  match c with
  | Ok a => k a
  | Raise e => Raise e
  end.

Notation "x <- c ;; k" := (bind c (fun x => k))
  (at level 61, c at next level, right associativity).

(** [for x in l: s = body(s, x)], stopping at the first exception. *)
Fixpoint for_each {A S : Type} (l : list A) (body : S -> A -> result S) (s : S)
  : result S :=
  match l with
  | [] => Ok s
  | x :: l' => s' <- body s x ;; for_each l' body s'
  end.

(** *** Strings *)

Definition lower_ascii (c : ascii) : ascii :=
  let n := N_of_ascii c in
  if ((65 <=? n) && (n <=? 90))%N then ascii_of_N (n + 32) else c.

(** [s.lower()] *)
Fixpoint lower (s : string) : string :=
  match s with
  | EmptyString => EmptyString
  | String c s' => String (lower_ascii c) (lower s')
  end.

Fixpoint startswith (p s : string) : bool :=
  match p, s with
  | EmptyString, _ => true
  | String a p', String b s' => Ascii.eqb a b && startswith p' s'
  | String _ _, EmptyString => false
  end.

(** [sub in s] *)
Fixpoint contains (sub s : string) : bool :=
  startswith sub s ||
  match s with
  | EmptyString => false
  | String _ s' => contains sub s'
  end.

(** [sep.join(l)] *)
Fixpoint join (sep : string) (l : list string) : string :=
  match l with
  | [] => EmptyString
  | [x] => x
  | x :: l' => String.append x (String.append sep (join sep l'))
  end.

(** [x in l] for a list (or a set) of strings *)
Definition str_in (x : string) (l : list string) : bool :=
  existsb (String.eqb x) l.

(** *** Dicts with string keys, in insertion order *)

Definition dict (V : Type) : Type := list (string * V).

Fixpoint dict_get {V : Type} (d : dict V) (k : string) : option V :=
  match d with
  | [] => None
  | (k', v) :: d' => if String.eqb k' k then Some v else dict_get d' k
  end.

(** [d.get(k, default)] *)
Definition dict_get_default {V : Type} (d : dict V) (k : string) (default : V) : V :=
  match dict_get d k with
  | Some v => v
  | None => default
  end.

(** [d[k] = v]: an existing key keeps its position, a new key goes last. *)
Fixpoint dict_set {V : Type} (d : dict V) (k : string) (v : V) : dict V :=
  match d with
  | [] => [(k, v)]
  | (k', v') :: d' =>
      if String.eqb k' k then (k', v) :: d' else (k', v') :: dict_set d' k v
  end.

Definition keys {V : Type} (d : dict V) : list string := map fst d.

(** *** Sequences *)

(** [l[i]] for a non-negative [i], raising past the end. *)
Definition index {A : Type} (l : list A) (i : nat) : result A :=
  match nth_error l i with
  | Some a => Ok a
  | None => Raise IndexError
  end.

(** *** Numbers *)

(** [a > b] on floats *)
Definition Qgtb (a b : Q) : bool := negb (Qle_bool a b).

(** Nearest integer, a tie going to the even neighbour. *)
Definition round_half_even (q : Q) : Z :=
  let f := Qfloor q in
  match Qcompare (q - inject_Z f) (1 # 2) with
  | Lt => f
  | Gt => f + 1
  | Eq => if Z.even f then f else f + 1
  end.

(** A float is held as the rational it stands for.  [fl q] is the binary64
    number nearest to [q]: 53 significant bits, a tie going to the even
    significand.  The exponent is not bounded, so overflow and subnormal
    numbers are left out. *)
Definition fl_pos (q : Q) : Q :=
  let e0 := Z.log2 (Qnum q) - Z.log2 (Zpos (Qden q)) - 52 in
  let e := if Qle_bool (2 ^ 52) (q * 2 ^ (- e0)) then e0 else e0 - 1 in
  inject_Z (round_half_even (q * 2 ^ (- e))) * 2 ^ e.

Definition fl (q : Q) : Q :=
  let q := Qred q in
  match Qcompare q 0 with
  | Eq => 0
  | Gt => Qred (fl_pos q)
  | Lt => Qred (- fl_pos (- q))
  end.

(** [a / b] on ints: true division, correctly rounded, raising on a zero
    divisor. *)
Definition true_div (a b : Z) : result Q :=
  if b =? 0 then Raise ZeroDivisionError
  else Ok (fl (inject_Z a / inject_Z b)).

(** [a * b] on floats *)
Definition float_mul (a b : Q) : Q := fl (a * b).

(** [min(a, b)]: the first argument unless the second is smaller. *)
Definition py_min (a b : Q) : Q := if Qgtb a b then b else a.

(** [int(q)]: truncation toward zero. *)
Definition int_of_float (q : Q) : Z := Z.quot (Qnum q) (Zpos (Qden q)).

(** [round(q, 1)] rounds the value the float [q] stands for to the nearest
    tenth, a tie going to the even tenth, and returns the float nearest to
    that tenth, which is held here as the tenth itself. *)
Definition round1 (q : Q) : Q := Qred (Qmake (round_half_even (q * 10)) 10).

(** Index of the first maximum of [x :: l], counted from [i]; [best] and [m]
    are the index and value of the maximum so far. *)
Fixpoint argmax_from (l : list Q) (i best : nat) (m : Q) : nat :=
  match l with
  | [] => best
  | x :: l' =>
      if Qgtb x m then argmax_from l' (S i) i x else argmax_from l' (S i) best m
  end.

(** [np.argmax]: the first index holding the maximum; an empty array raises. *)
Definition argmax (l : list Q) : result nat :=
  match l with
  | [] => Raise ValueError
  | x :: l' => Ok (argmax_from l' 1 0 x)
  end.

(** *** Sorting: [sorted(l, key=key, reverse=True)] is stable *)

Section Sorted.
Context {A : Type} (key : A -> Q).

Fixpoint insert_desc (x : A) (l : list A) : list A :=
  match l with
  | [] => [x]
  | y :: l' =>
      if Qgtb (key y) (key x) then y :: insert_desc x l' else x :: y :: l'
  end.

(** Insertion from the right: an element stays in front of the later
    elements with an equal key, as under Python's stable sort. *)
Fixpoint sorted_desc (l : list A) : list A :=
  match l with
  | [] => []
  | x :: l' => insert_desc x (sorted_desc l')
  end.

Fixpoint insert_asc (x : A) (l : list A) : list A :=
  match l with
  | [] => [x]
  | y :: l' =>
      if Qgtb (key x) (key y) then y :: insert_asc x l' else x :: y :: l'
  end.

(** [l.sort(key=key)], stable and ascending *)
Fixpoint sorted_asc (l : list A) : list A :=
  match l with
  | [] => []
  | x :: l' => insert_asc x (sorted_asc l')
  end.

End Sorted.

(** *** Slices: [a[start:stop]] on a sequence of length [len] *)

Definition slice_index (len : nat) (i : Z) : nat :=
  let n := Z.of_nat len in
  if i <? 0 then Z.to_nat (Z.max 0 (i + n)) else Z.to_nat (Z.min i n).

(** First index and number of elements of [a[start:stop]]. *)
Definition slice_bounds (len : nat) (start stop : Z) : nat * nat :=
  let lo := slice_index len start in
  let hi := slice_index len stop in
  (lo, (hi - lo)%nat).

End Py.

Import Py.

(* ================================================================== *)
(** ** Images                                                          *)
(* ================================================================== *)

(** A two-dimensional array of [A]: [shape0] rows of [shape1] entries. *)
Record ndarray (A : Type) : Type := Ndarray {
  shape0 : nat;
  shape1 : nat;
  at_ : nat -> nat -> A
}.

(** The entries in row-major order. *)
Definition entries {A : Type} (a : ndarray A) : list A :=
  flat_map (fun i => map (at_ a i) (seq 0 (shape1 a))) (seq 0 (shape0 a)).

(** A pixel after the HSV conversion: OpenCV's 8-bit hue, saturation, value. *)
Record hsv : Type := HSV { hue : Z; sat : Z; val : Z }.

Definition image : Type := ndarray hsv.

(** [img.size] of a three-channel image *)
Definition size (img : image) : nat := (shape0 img * shape1 img * 3)%nat.

(** [img[r0:r1, c0:c1]] *)
Definition crop (img : image) (r0 r1 c0 c1 : Z) : image :=
  let '(row, rows) := slice_bounds (shape0 img) r0 r1 in
  let '(col, cols) := slice_bounds (shape1 img) c0 c1 in
  Ndarray rows cols (fun i j => at_ img (row + i)%nat (col + j)%nat).

(* ================================================================== *)
(** ** color_analyzer.py                                               *)
(* ================================================================== *)

Module color_analyzer.

Inductive ColorBlindnessType : Type :=
| NORMAL
| PROTANOPIA
| PROTANOMALY
| DEUTERANOPIA
| DEUTERANOMALY
| TRITANOPIA
| TRITANOMALY
| ACHROMATOPSIA.

(** The value of each member of the enumeration. *)
Definition value (t : ColorBlindnessType) : string :=
  match t with
  | NORMAL => "normal"
  | PROTANOPIA => "protanopia"
  | PROTANOMALY => "protanomaly"
  | DEUTERANOPIA => "deuteranopia"
  | DEUTERANOMALY => "deuteranomaly"
  | TRITANOPIA => "tritanopia"
  | TRITANOMALY => "tritanomaly"
  | ACHROMATOPSIA => "achromatopsia"
  end.

Definition members : list ColorBlindnessType :=
  [NORMAL; PROTANOPIA; PROTANOMALY; DEUTERANOPIA; DEUTERANOMALY;
   TRITANOPIA; TRITANOMALY; ACHROMATOPSIA].

(** [ColorBlindnessType(s)]: lookup by value, [ValueError] when no member has it. *)
Definition of_value (s : string) : result ColorBlindnessType :=
  match find (fun t => String.eqb (value t) s) members with
  | Some t => Ok t
  | None => Raise ValueError
  end.

Definition eqb (a b : ColorBlindnessType) : bool := String.eqb (value a) (value b).

Definition COLOR_RANGES : dict (hsv * hsv) :=
  [ ("red_low",  (HSV 0 100 100,   HSV 10 255 255));
    ("red_high", (HSV 160 100 100, HSV 180 255 255));
    ("orange",   (HSV 10 100 100,  HSV 25 255 255));
    ("yellow",   (HSV 25 100 100,  HSV 35 255 255));
    ("green",    (HSV 35 100 100,  HSV 85 255 255));
    ("cyan",     (HSV 85 100 100,  HSV 100 255 255));
    ("blue",     (HSV 100 100 100, HSV 130 255 255));
    ("purple",   (HSV 130 100 100, HSV 160 255 255));
    ("white",    (HSV 0 0 200,     HSV 180 30 255));
    ("black",    (HSV 0 0 0,       HSV 180 255 50)) ].

Definition PROBLEMATIC_COLORS : list (ColorBlindnessType * list string) :=
  [ (NORMAL, []);
    (PROTANOPIA, ["red_low"; "red_high"; "orange"; "green"]);
    (PROTANOMALY, ["red_low"; "red_high"; "orange"]);
    (DEUTERANOPIA, ["red_low"; "red_high"; "green"; "yellow"]);
    (DEUTERANOMALY, ["green"; "yellow"]);
    (TRITANOPIA, ["blue"; "yellow"; "cyan"]);
    (TRITANOMALY, ["blue"; "yellow"]);
    (ACHROMATOPSIA, keys COLOR_RANGES) ].

(** [PROBLEMATIC_COLORS.get(t, [])] *)
Definition problematic_colors (t : ColorBlindnessType) : list string :=
  match find (fun e => eqb (fst e) t) PROBLEMATIC_COLORS with
  | Some e => snd e
  | None => []
  end.

Definition COLOR_DISPLAY_NAMES : dict string :=
  [ ("red_low", "red"); ("red_high", "red"); ("orange", "orange");
    ("yellow", "yellow"); ("green", "green"); ("cyan", "cyan");
    ("blue", "blue"); ("purple", "purple"); ("white", "white");
    ("black", "black") ].

(** [COLOR_DISPLAY_NAMES.get(color_name, color_name)] *)
Definition display_name (color_name : string) : string :=
  dict_get_default COLOR_DISPLAY_NAMES color_name color_name.

(** [cv2.inRange]: 255 where every channel lies in the inclusive range, else 0. *)
Definition in_range (lower upper p : hsv) : bool :=
  (hue lower <=? hue p) && (hue p <=? hue upper) &&
  (sat lower <=? sat p) && (sat p <=? sat upper) &&
  (val lower <=? val p) && (val p <=? val upper).

Definition inRange (img : image) (lower upper : hsv) : ndarray Z :=
  Ndarray (shape0 img) (shape1 img)
          (fun i j => if in_range lower upper (at_ img i j) then 255 else 0).

(** [cv2.countNonZero] *)
Definition countNonZero (mask : ndarray Z) : nat :=
  length (filter (fun m => negb (m =? 0)) (entries mask)).

(** One turn of the loop over [COLOR_RANGES.items()]. *)
Definition detect_colors_step (hsv_img : image) (total_pixels : nat)
  (color_percentages : dict Q) (item : string * (hsv * hsv)) : result (dict Q) :=
  let '(color_name, (lower, upper)) := item in
  let mask := inRange hsv_img lower upper in
  let color_pixels := countNonZero mask in
  ratio <- true_div (Z.of_nat color_pixels) (Z.of_nat total_pixels) ;;
  let percentage := float_mul ratio 100 in
  if Qgtb percentage 5
  then Ok (dict_set color_percentages color_name (round1 percentage))
  else Ok color_percentages.

Definition detect_colors (roi : image) : result (dict Q) :=
  if (size roi =? 0)%nat then Ok []
  else
    let total_pixels := (shape0 roi * shape1 roi)%nat in
    for_each COLOR_RANGES (detect_colors_step roi total_pixels) [].

(** The loop of [get_dominant_colors] over [sorted_colors], with its [break]. *)
Fixpoint dominant_loop (sorted_colors : list (string * Q)) (top_n : Z)
  (seen dominant : list string) : list string :=
  match sorted_colors with
  | [] => dominant
  | (color_name, _) :: rest =>
      let name := display_name color_name in
      let '(seen', dominant') :=
        if str_in name seen then (seen, dominant)
        else (name :: seen, dominant ++ [name]) in
      if Z.of_nat (length dominant') >=? top_n then dominant'
      else dominant_loop rest top_n seen' dominant'
  end.

Definition get_dominant_colors (roi : image) (top_n : Z) : result (list string) :=
  color_percentages <- detect_colors roi ;;
  let sorted_colors := sorted_desc snd color_percentages in
  Ok (dominant_loop sorted_colors top_n [] []).

Definition is_problematic_for_user (detected_colors : dict Q)
  (colorblindness_type : ColorBlindnessType) : bool * option string :=
  let problematic := problematic_colors colorblindness_type in
  match problematic with
  | [] => (false, None)
  | _ :: _ =>
      let found_problematic :=
        fold_left
          (fun found (item : string * Q) =>
             let '(color_name, percentage) := item in
             if str_in color_name problematic && Qgtb percentage 10
             then found ++ [(display_name color_name, percentage)]
             else found)
          detected_colors [] in
      match found_problematic with
      | _ :: _ =>
          let colors_str := join ", " (map fst (firstn 2 found_problematic)) in
          (true,
           Some (String.append "Contains "
                   (String.append colors_str " - may be difficult to see")))
      | [] => (false, None)
      end
  end.

(** The dict returned by [analyze_region].  Both return statements set the
    keys [dominant_colors], [is_problematic] and [warning]; only the second
    one sets [color_breakdown]. *)
Record color_info : Type := ColorInfo {
  dominant_colors : list string;
  is_problematic : bool;
  warning : option string;
  color_breakdown : option (dict Q)
}.

Definition analyze_region (roi : image) (colorblindness_type : ColorBlindnessType)
  : result color_info :=
  if (size roi =? 0)%nat then Ok (ColorInfo [] false None None)
  else
    detected_colors <- detect_colors roi ;;
    dominant <- get_dominant_colors roi 3 ;;
    let '(is_problematic, warning) :=
      is_problematic_for_user detected_colors colorblindness_type in
    Ok (ColorInfo dominant is_problematic warning (Some detected_colors)).

(** The dict returned by [analyze_traffic_light]. *)
Record traffic_light : Type := TrafficLight {
  state : string;
  state_confidence : Q
}.

Definition analyze_traffic_light (roi : image) : result traffic_light :=
  if (size roi =? 0)%nat then Ok (TrafficLight "unknown" 0)
  else
    colors <- detect_colors roi ;;
    let red_pct :=
      (dict_get_default colors "red_low" 0
       + dict_get_default colors "red_high" 0)%Q in
    let yellow_pct := dict_get_default colors "yellow" 0%Q in
    let green_pct := dict_get_default colors "green" 0%Q in
    if Qgtb red_pct yellow_pct && Qgtb red_pct green_pct && Qgtb red_pct 10
    then Ok (TrafficLight "red" (py_min (red_pct / 100) 1))
    else if Qgtb yellow_pct red_pct && Qgtb yellow_pct green_pct
            && Qgtb yellow_pct 10
    then Ok (TrafficLight "yellow" (py_min (yellow_pct / 100) 1))
    else if Qgtb green_pct red_pct && Qgtb green_pct yellow_pct
            && Qgtb green_pct 10
    then Ok (TrafficLight "green" (py_min (green_pct / 100) 1))
    else Ok (TrafficLight "unknown" 0).

End color_analyzer.

(* ================================================================== *)
(** ** detector.py                                                     *)
(* ================================================================== *)

Module detector.

Definition COCO_CLASSES : list string :=
  [ "person"; "bicycle"; "car"; "motorcycle"; "airplane"; "bus"; "train"; "truck";
    "boat"; "traffic light"; "fire hydrant"; "stop sign"; "parking meter"; "bench";
    "bird"; "cat"; "dog"; "horse"; "sheep"; "cow"; "elephant"; "bear"; "zebra";
    "giraffe"; "backpack"; "umbrella"; "handbag"; "tie"; "suitcase"; "frisbee";
    "skis"; "snowboard"; "sports ball"; "kite"; "baseball bat"; "baseball glove";
    "skateboard"; "surfboard"; "tennis racket"; "bottle"; "wine glass"; "cup";
    "fork"; "knife"; "spoon"; "bowl"; "banana"; "apple"; "sandwich"; "orange";
    "broccoli"; "carrot"; "hot dog"; "pizza"; "donut"; "cake"; "chair"; "couch";
    "potted plant"; "bed"; "dining table"; "toilet"; "tv"; "laptop"; "mouse";
    "remote"; "keyboard"; "cell phone"; "microwave"; "oven"; "toaster"; "sink";
    "refrigerator"; "book"; "clock"; "vase"; "scissors"; "teddy bear";
    "hair drier"; "toothbrush" ].

Record obj_info : Type := ObjInfo {
  info_priority : string;
  info_color_relevant : bool
}.

Definition RELEVANT_OBJECTS : dict obj_info :=
  [ ("traffic light", ObjInfo "critical" true);
    ("stop sign", ObjInfo "critical" true);
    ("car", ObjInfo "high" true);
    ("truck", ObjInfo "high" true);
    ("bus", ObjInfo "high" true);
    ("motorcycle", ObjInfo "high" true);
    ("bicycle", ObjInfo "medium" false);
    ("person", ObjInfo "medium" false);
    ("fire hydrant", ObjInfo "low" true);
    ("dog", ObjInfo "medium" false);
    ("cat", ObjInfo "low" false);
    ("bird", ObjInfo "low" false);
    ("bench", ObjInfo "low" false);
    ("umbrella", ObjInfo "low" true);
    ("backpack", ObjInfo "low" false);
    ("handbag", ObjInfo "low" false);
    ("suitcase", ObjInfo "low" false);
    ("bottle", ObjInfo "low" false);
    ("chair", ObjInfo "low" false);
    ("couch", ObjInfo "low" false);
    ("potted plant", ObjInfo "low" true);
    ("tv", ObjInfo "low" false);
    ("laptop", ObjInfo "low" false);
    ("cell phone", ObjInfo "low" false);
    ("boat", ObjInfo "low" false);
    ("train", ObjInfo "medium" true);
    ("airplane", ObjInfo "low" false) ].

(** A box [x, y, w, h]. *)
Definition box : Type := (Z * Z * Z * Z)%type.

(** One entry of the list returned by [detect]. *)
Record detection : Type := Detection {
  label : string;
  confidence : Q;
  bbox : box;
  priority : string;
  color_relevant : bool
}.

(** One anchor row of the network output: [cx, cy, w, h, objectness, scores...]. *)
Definition anchor : Type := list Q.

(** The loaded network, seen through [forward] on the blob of a frame: one
    array of anchor rows per output layer. *)
Definition Net : Type := image -> list (list anchor).

Record ObjectDetector : Type := {
  net : option Net;
  classes : list string
}.

Definition is_loaded (self : ObjectDetector) : bool :=
  match net self with
  | Some _ => true
  | None => false
  end.

(** The lists [boxes], [confidences] and [class_ids]. *)
Definition candidates : Type := (list box * list Q * list nat)%type.

(** [priority_order.get(p, 4)] *)
Definition priority_order (p : string) : Z :=
  dict_get_default
    [("critical", 0); ("high", 1); ("medium", 2); ("low", 3)] p 4.

(** An element met when iterating over the result of [cv2.dnn.NMSBoxes]: a
    Python [int], a numpy integer scalar (the result is a flat array) or a
    numpy row (the result is an N x 1 array). *)
Inductive nms_index : Type :=
| PyInt (i : nat)
| NpInt (i : nat)
| NpRow (row : list nat).

(** [i if isinstance(i, int) else i[0]]: a numpy integer is no [int], and
    indexing a numpy scalar raises [IndexError]. *)
Definition index_of (i : nms_index) : result nat :=
  match i with
  | PyInt k => Ok k
  | NpInt _ => Raise IndexError
  | NpRow row => index row 0
  end.

Section Detect.

(** [cv2.dnn.NMSBoxes(boxes, confidences, score_threshold, nms_threshold)]:
    the indices of the boxes that are kept. *)
Variable NMSBoxes : list box -> list Q -> Q -> Q -> list nms_index.

(** The body of [for detection in output]. *)
Definition anchor_step (width height : Z) (confidence_threshold : Q)
  (acc : candidates) (row : anchor) : result candidates :=
  let '(boxes, confidences, class_ids) := acc in
  let scores := skipn 5 row in
  class_id <- argmax scores ;;
  confidence <- index scores class_id ;;
  if Qgtb confidence confidence_threshold then
    d0 <- index row 0 ;;
    d1 <- index row 1 ;;
    d2 <- index row 2 ;;
    d3 <- index row 3 ;;
    let center_x := int_of_float (d0 * inject_Z width) in
    let center_y := int_of_float (d1 * inject_Z height) in
    let w := int_of_float (d2 * inject_Z width) in
    let h := int_of_float (d3 * inject_Z height) in
    let x := int_of_float (inject_Z center_x - inject_Z w / 2) in
    let y := int_of_float (inject_Z center_y - inject_Z h / 2) in
    Ok (boxes ++ [(x, y, w, h)], confidences ++ [confidence],
        class_ids ++ [class_id])
  else Ok acc.

(** [for output in outputs: for detection in output: ...] *)
Definition collect (width height : Z) (confidence_threshold : Q)
  (outputs : list (list anchor)) : result candidates :=
  for_each outputs
    (fun acc output =>
       for_each output (anchor_step width height confidence_threshold) acc)
    ([], [], []).

(** The body of [for i in indices]. *)
Definition keep_step (self : ObjectDetector) (width height : Z)
  (cands : candidates) (detections : list detection) (i : nms_index)
  : result (list detection) :=
  let '(boxes, confidences, class_ids) := cands in
  idx <- index_of i ;;
  class_id <- index class_ids idx ;;
  label <- index (classes self) class_id ;;
  b <- index boxes idx ;;
  let '(x, y, w, h) := b in
  let x := Z.max 0 x in
  let y := Z.max 0 y in
  let w := Z.min w (width - x) in
  let h := Z.min h (height - y) in
  let obj_info := dict_get_default RELEVANT_OBJECTS label (ObjInfo "low" false) in
  c <- index confidences idx ;;
  Ok (detections ++
      [Detection label c (x, y, w, h)
                 (info_priority obj_info) (info_color_relevant obj_info)]).

Definition detect (self : ObjectDetector) (frame : image)
  (confidence_threshold : Q) : result (list detection) :=
  match net self with
  | None => Ok []
  | Some forward =>
      let height := Z.of_nat (shape0 frame) in
      let width := Z.of_nat (shape1 frame) in
      let outputs := forward frame in
      cands <- collect width height confidence_threshold outputs ;;
      let '(boxes, confidences, _) := cands in
      let indices := NMSBoxes boxes confidences confidence_threshold (4 # 10) in
      detections <- for_each indices (keep_step self width height cands) [] ;;
      Ok (sorted_asc (fun d => inject_Z (priority_order (priority d))) detections)
  end.

End Detect.

(** [ObjectDetector()] once the model files are loaded (or not). *)
Definition new_detector (n : option Net) : ObjectDetector :=
  {| net := n; classes := COCO_CLASSES |}.

End detector.

(* ================================================================== *)
(** ** main.py                                                         *)
(* ================================================================== *)

Module main.

Import color_analyzer.

Record DetectionRequest : Type := {
  image_b64 : string;
  colorblindness_type : string;
  min_confidence : Q
}.

Record BoundingBox : Type := {
  x : Z;
  y : Z;
  width : Z;
  height : Z
}.

Record DetectedObject : Type := {
  label : string;
  confidence : Q;
  bbox : BoundingBox;
  dominant_colors : list string;
  is_problematic_color : bool;
  color_warning : option string;
  priority : string
}.

(** The response without [processing_time_ms], a wall-clock measurement. *)
Record DetectionResponse : Type := {
  success : bool;
  objects : list DetectedObject;
  frame_width : nat;
  frame_height : nat;
  alert_message : option string
}.

(** What the endpoint gives back: a response or an [HTTPException]. *)
Inductive reply : Type :=
| Response (r : DetectionResponse)
| HTTPException (status_code : Z).

Definition critical_objects : list string :=
  ["traffic light"; "stop sign"; "fire"; "emergency vehicle"].

Definition high_objects : list string :=
  ["brake light"; "turn signal"; "yield sign"; "warning sign"; "cone"].

Definition determine_priority (label : string) (is_problematic : bool) : string :=
  let label_lower := lower label in
  if existsb (fun obj => contains obj label_lower) critical_objects then
    if is_problematic then "critical" else "high"
  else if existsb (fun obj => contains obj label_lower) high_objects then
    if is_problematic then "high" else "normal"
  else
    if is_problematic then "normal" else "low".

(** The profile of a request: [ValueError] from the enumeration is caught. *)
Definition parse_cb_type (s : string) : result ColorBlindnessType :=
  match of_value (lower s) with
  | Raise ValueError => Ok NORMAL
  | r => r
  end.

(** [color_info.get('warning', default)]: [analyze_region] sets the key on
    both of its returns, so the stored value comes back, also when it is
    [None]. *)
Definition get_warning (info : color_info) (default : string) : option string :=
  warning info.

(** How an f-string renders that value. *)
Definition format_value (v : option string) : string :=
  match v with
  | Some s => s
  | None => "None"
  end.

(** The lists [detected_objects] and [critical_alerts]. *)
Definition loop_state : Type := (list DetectedObject * list string)%type.

(** The body of [for det in detections]. *)
Definition object_step (frame : image) (cb_type : ColorBlindnessType)
  (st : loop_state) (det : detector.detection) : result loop_state :=
  let '(detected_objects, critical_alerts) := st in
  let '(x, y, w, h) := detector.bbox det in
  let roi := crop frame y (y + h) x (x + w) in
  color_info <- analyze_region roi cb_type ;;
  let priority :=
    determine_priority (detector.label det) (is_problematic color_info) in
  let obj :=
    {| label := detector.label det;
       confidence := detector.confidence det;
       bbox := {| x := x; y := y; width := w; height := h |};
       dominant_colors := color_analyzer.dominant_colors color_info;
       is_problematic_color := is_problematic color_info;
       color_warning := warning color_info;
       priority := priority |} in
  let detected_objects := detected_objects ++ [obj] in
  if is_problematic color_info && str_in priority ["critical"; "high"] then
    Ok (detected_objects,
        critical_alerts ++
        [String.append (detector.label det)
           (String.append ": "
              (format_value (get_warning color_info "color may be hard to see")))])
  else Ok (detected_objects, critical_alerts).

Definition make_alert_message (critical_alerts : list string) : option string :=
  match critical_alerts with
  | [] => None
  | _ :: _ => Some (join "; " (firstn 3 critical_alerts))
  end.

Record HealthResponse : Type := {
  status : string;
  model_loaded : bool
}.

(** The [/health] endpoint, over the module-level [detector]. *)
Definition health_check (detector : option detector.ObjectDetector)
  : HealthResponse :=
  {| status := "healthy";
     model_loaded :=
       match detector with
       | Some det => detector.is_loaded det
       | None => false
       end |}.

Section Endpoint.

Variable NMSBoxes :
  list detector.box -> list Q -> Q -> Q -> list detector.nms_index.

(** [decode_base64_image]: base64, PIL and OpenCV decoding of the payload. *)
Variable decode_base64_image : string -> result image.

(** The [try] block of [detect_objects]. *)
Definition process (det : detector.ObjectDetector) (request : DetectionRequest)
  : result DetectionResponse :=
  frame <- decode_base64_image (image_b64 request) ;;
  let frame_height := shape0 frame in
  let frame_width := shape1 frame in
  cb_type <- parse_cb_type (colorblindness_type request) ;;
  detections <- detector.detect NMSBoxes det frame (min_confidence request) ;;
  st <- for_each detections (object_step frame cb_type) ([], []) ;;
  let '(detected_objects, critical_alerts) := st in
  Ok {| success := true;
        objects := detected_objects;
        frame_width := frame_width;
        frame_height := frame_height;
        alert_message := make_alert_message critical_alerts |}.

(** [detector] is the module-level instance, [None] before start-up. *)
Definition detect_objects (detector : option detector.ObjectDetector)
  (request : DetectionRequest) : reply :=
  match detector with
  | None => HTTPException 503
  | Some det =>
      match process det request with
      | Ok r => Response r
      | Raise _ => HTTPException 500
      end
  end.

End Endpoint.

End main.

(* ================================================================== *)
(** ** The specification's reading of each component                   *)
(* ================================================================== *)

(** These definitions follow the words of the specification, not the code;
    the theorems below compare the two. *)

Module Spec.

Import color_analyzer.

(** *** Palette classifier *)

(** Pixels of the region whose HSV value falls within the inclusive range. *)
Definition matching_pixels (roi : image) (lower upper : hsv) : nat :=
  length (filter (in_range lower upper) (entries roi)).

Definition total_pixels (roi : image) : nat := length (entries roi).

(** (matching pixel count / total pixel count) x 100 *)
Definition percentage (roi : image) (lower upper : hsv) : Q :=
  inject_Z (Z.of_nat (matching_pixels roi lower upper))
  / inject_Z (Z.of_nat (total_pixels roi)) * 100.

(** The same percentage as Python computes it: a correctly rounded
    division of the two counts, then a float product with 100. *)
Definition float_percentage (roi : image) (lower upper : hsv) : Q :=
  float_mul
    (fl (inject_Z (Z.of_nat (matching_pixels roi lower upper))
         / inject_Z (Z.of_nat (total_pixels roi))))
    100.

(** Sum of the percentages held by a breakdown. *)
Definition total_percentage (breakdown : dict Q) : Q :=
  fold_right Qplus 0%Q (map snd breakdown).

(** The buckets of the catalogue whose range holds the pixel. *)
Definition buckets_of (p : hsv) : list string :=
  keys (filter (fun b => in_range (fst (snd b)) (snd (snd b)) p) COLOR_RANGES).

(** Hues at which two neighbouring chromatic buckets meet. *)
Definition shared_hues : list Z := [10; 25; 35; 85; 100; 130; 160].

(** A saturated, bright pixel whose hue is one where two buckets meet. *)
Definition on_shared_boundary (p : hsv) : Prop :=
  In (hue p) shared_hues /\ 100 <= sat p <= 255 /\ 100 <= val p <= 255.

(** No pixel of the region lies on such a boundary. *)
Definition off_boundaries (roi : image) : Prop :=
  forall i j, (i < shape0 roi)%nat -> (j < shape1 roi)%nat ->
    ~ on_shared_boundary (at_ roi i j).

(** Sum, over the catalogue, of the unrounded percentages. *)
Definition exact_total (roi : image) : Q :=
  fold_right Qplus 0%Q
    (map (fun b => percentage roi (fst (snd b)) (snd (snd b))) COLOR_RANGES).

(** *** Dominant colour selector *)

(** The first occurrence of each name, in order. *)
Fixpoint distinct (seen : list string) (names : list string) : list string :=
  match names with
  | [] => []
  | n :: rest =>
      if in_dec string_dec n seen then distinct seen rest
      else n :: distinct (n :: seen) rest
  end.

(** *** Colorblindness impact evaluator *)

(** Buckets both in the profile's problematic set and above 10%, in
    breakdown iteration order. *)
Definition matching_buckets (breakdown : dict Q) (t : ColorBlindnessType)
  : list string :=
  keys (filter (fun item =>
                  if in_dec string_dec (fst item) (problematic_colors t)
                  then if Qlt_le_dec 10 (snd item) then true else false
                  else false)
               breakdown).

Definition warning_text (names : list string) : string :=
  String.append "Contains "
    (String.append (join ", " names) " - may be difficult to see").

Definition impact (breakdown : dict Q) (t : ColorBlindnessType)
  : bool * option string :=
  match problematic_colors t, matching_buckets breakdown t with
  | [], _ => (false, None)
  | _ :: _, [] => (false, None)
  | _ :: _, (_ :: _) as found =>
      (true, Some (warning_text (map display_name (firstn 2 found))))
  end.

(** *** Alert synthesizer *)

Definition critical_keywords : list string :=
  ["traffic light"; "stop sign"; "fire"; "emergency vehicle"].

Definition high_keywords : list string :=
  ["brake light"; "turn signal"; "yield sign"; "warning sign"; "cone"].

(** The label contains, ignoring case, one of the keywords. *)
Definition mentions (keywords : list string) (label : string) : Prop :=
  exists kw pre post,
    In kw keywords /\
    lower label = String.append pre (String.append kw post).

(** The six rows of the final-priority table, read top to bottom. *)
Inductive priority_table (label : string) : bool -> string -> Prop :=
| critical_problematic :
    mentions critical_keywords label ->
    priority_table label true "critical"
| critical_plain :
    mentions critical_keywords label ->
    priority_table label false "high"
| high_problematic :
    ~ mentions critical_keywords label -> mentions high_keywords label ->
    priority_table label true "high"
| high_plain :
    ~ mentions critical_keywords label -> mentions high_keywords label ->
    priority_table label false "normal"
| other_problematic :
    ~ mentions critical_keywords label -> ~ mentions high_keywords label ->
    priority_table label true "normal"
| other_plain :
    ~ mentions critical_keywords label -> ~ mentions high_keywords label ->
    priority_table label false "low".

(** An object goes on the alert list when its colours are problematic and
    its final priority is critical or high. *)
Definition qualifies (o : main.DetectedObject) : bool :=
  main.is_problematic_color o &&
  (String.eqb (main.priority o) "critical" || String.eqb (main.priority o) "high").

Definition default_warning : string := "color may be hard to see".

(** "<label>: <warning-or-default>" *)
Definition alert_entry (o : main.DetectedObject) : string :=
  String.append (main.label o)
    (String.append ": "
       match main.color_warning o with
       | Some w => w
       | None => default_warning
       end).

Definition alert_list (objects : list main.DetectedObject) : list string :=
  map alert_entry (filter qualifies objects).

Definition alert_message (objects : list main.DetectedObject) : option string :=
  match alert_list objects with
  | [] => None
  | (_ :: _) as alerts => Some (join "; " (firstn 3 alerts))
  end.

(** *** Detection postprocessor *)

(** The maximum per-class score of an anchor row. *)
Definition max_score (row : detector.anchor) : Q :=
  match skipn 5 row with
  | [] => 0%Q
  | s :: scores => fold_left (fun m q => if Qlt_le_dec m q then q else m) scores s
  end.

(** The row's maximum score exceeds the threshold. *)
Definition passes (confidence_threshold : Q) (row : detector.anchor) : bool :=
  if Qlt_le_dec confidence_threshold (max_score row) then true else false.

(** A network whose output has lost the rows that do not pass. *)
Definition without_low_rows (confidence_threshold : Q)
  (d : detector.ObjectDetector) : detector.ObjectDetector :=
  {| detector.net :=
       match detector.net d with
       | Some forward =>
           Some (fun frame => map (filter (passes confidence_threshold)) (forward frame))
       | None => None
       end;
     detector.classes := detector.classes d |}.

(** Every anchor row carries at least one class score after its five
    leading entries. *)
Definition well_formed (outputs : list (list detector.anchor)) : Prop :=
  Forall (Forall (fun row : detector.anchor => (5 < length row)%nat)) outputs.

(** *** Transport *)

Definition profile_names : list string :=
  ["normal"; "protanopia"; "protanomaly"; "deuteranopia"; "deuteranomaly";
   "tritanopia"; "tritanomaly"; "achromatopsia"].

(** The request with another profile string. *)
Definition with_profile (request : main.DetectionRequest) (s : string)
  : main.DetectionRequest :=
  {| main.image_b64 := main.image_b64 request;
     main.colorblindness_type := s;
     main.min_confidence := main.min_confidence request |}.

End Spec.

(* ================================================================== *)
(** ** Closed forms of the loops                                       *)
(* ================================================================== *)

Module Closed.

Import color_analyzer.

(** The test of the loop of [is_problematic_for_user]. *)
Definition flagged (problematic : list string) (item : string * Q) : bool :=
  str_in (fst item) problematic && Qgtb (snd item) 10.

(** A bound on the relative error of one float rounding: [2 ^ -52]. *)
Definition ulp_bound : Q := 1 # 4503599627370496.

(** The percentage [detect_colors] computes for a catalogue entry. *)
Definition pct (roi : image) (total : nat) (b : string * (hsv * hsv)) : Q :=
  float_mul
    (fl (inject_Z (Z.of_nat
           (countNonZero (inRange roi (fst (snd b)) (snd (snd b)))))
         / inject_Z (Z.of_nat total)))
    100.

(** The breakdown [detect_colors] builds from a catalogue. *)
Definition breakdown_of (roi : image) (total : nat) (ranges : dict (hsv * hsv))
  : dict Q :=
  map (fun b => (fst b, round1 (pct roi total b)))
      (filter (fun b => Qgtb (pct roi total b) 5) ranges).

(** Every confidence kept as a candidate exceeds the threshold. *)
Definition above (thr : Q) (cands : detector.candidates) : Prop :=
  Forall (fun c => (thr < c)%Q) (snd (fst cands)).



(** The object the loop of [detect_objects] builds for a detection. *)
Definition object_of (det : detector.detection) (info : color_info)
  : main.DetectedObject :=
  let '(x, y, w, h) := detector.bbox det in
  {| main.label := detector.label det;
     main.confidence := detector.confidence det;
     main.bbox := {| main.x := x; main.y := y; main.width := w; main.height := h |};
     main.dominant_colors := dominant_colors info;
     main.is_problematic_color := is_problematic info;
     main.color_warning := warning info;
     main.priority :=
       main.determine_priority (detector.label det) (is_problematic info) |}.

(** [o] is what the loop of [detect_objects] makes of the detection [det]
    under the profile [cb_type]. *)
Definition analyzed (frame : image) (cb_type : ColorBlindnessType)
  (det : detector.detection) (o : main.DetectedObject) : Prop :=
  let '(x, y, w, h) := detector.bbox det in
  exists info,
    analyze_region (crop frame y (y + h) x (x + w)) cb_type = Ok info
    /\ o = object_of det info.

End Closed.

(* ================================================================== *)
(** ** Concrete inputs                                                 *)
(* ================================================================== *)

Module Examples.

Import color_analyzer.

(** A region that repeats one pixel. *)
Definition uniform (rows cols : nat) (p : hsv) : image :=
  Ndarray rows cols (fun _ _ => p).

(** BGR (0, 0, 255), pure red: hue 0. *)
Definition red : hsv := HSV 0 255 255.

(** BGR (0, 85, 255): hue 20 degrees, which OpenCV stores as 10, the value at
    which the ranges of [red_low] and [orange] meet. *)
Definition red_orange : hsv := HSV 10 255 255.

(** BGR (0, 255, 0), pure green: hue 60. *)
Definition green : hsv := HSV 60 255 255.

(** BGR (128, 128, 128), mid grey: in no bucket. *)
Definition grey : hsv := HSV 0 0 128.

(** A region whose first [n] pixels, row by row, are [p] and whose other
    pixels are [q]. *)
Definition leading (rows cols n : nat) (p q : hsv) : image :=
  Ndarray rows cols (fun i j => if (i * cols + j <? n)%nat then p else q).

(** One pixel in each of six buckets, none on a shared hue. *)
Definition six_colors : image :=
  Ndarray 1 6
    (fun _ j =>
       match j with
       | 0%nat => HSV 5 255 255
       | 1%nat => HSV 20 255 255
       | 2%nat => HSV 30 255 255
       | 3%nat => HSV 50 255 255
       | 4%nat => HSV 90 255 255
       | _ => HSV 110 255 255
       end).

(** An anchor row centred in the frame, half its width and height, with the
    given score for class 9 (traffic light) and for class 11 (stop sign). *)
Definition anchor_row (traffic_light stop_sign : Q) : detector.anchor :=
  [ 1 # 2; 1 # 2; 1 # 2; 1 # 2; 1%Q ] ++
  [ 0; 0; 0; 0; 0; 0; 0; 0; 0; traffic_light; 0; stop_sign ]%Q.

(** A network with one output layer of three anchors; the third is below
    any usual threshold. *)
Definition three_anchors : detector.Net :=
  fun _ => [ [ anchor_row (9 # 10) 0; anchor_row 0 (8 # 10);
               anchor_row (1 # 10) (2 # 10) ] ].

Definition loaded : detector.ObjectDetector :=
  detector.new_detector (Some three_anchors).

(** Suppression that keeps every candidate and answers with an N x 1 array,
    one row per kept box. *)
Definition keep_all (boxes : list detector.box) (confidences : list Q)
  (score_threshold nms_threshold : Q) : list detector.nms_index :=
  map (fun i => detector.NpRow [i]) (seq 0 (length boxes)).

(** The same suppression answering with a flat array of numpy integers. *)
Definition keep_all_flat (boxes : list detector.box) (confidences : list Q)
  (score_threshold nms_threshold : Q) : list detector.nms_index :=
  map detector.NpInt (seq 0 (length boxes)).

(** Every payload decodes to an 8 x 8 frame of pure red. *)
Definition decode_red (payload : string) : result image :=
  Ok (uniform 8 8 red).

Definition request (profile : string) : main.DetectionRequest :=
  {| main.image_b64 := "";
     main.colorblindness_type := profile;
     main.min_confidence := 1 # 2 |}.

(** The response to a protanopia request on that frame. *)
Definition red_response : main.DetectionResponse :=
  Eval vm_compute in
    match main.detect_objects keep_all decode_red (Some loaded)
            (request "protanopia") with
    | main.Response r => r
    | main.HTTPException _ =>
        {| main.success := false; main.objects := [];
           main.frame_width := 0; main.frame_height := 0;
           main.alert_message := None |}
    end.

End Examples.

(* ================================================================== *)
(** ** Facts about the Python runtime                                  *)
(* ================================================================== *)

Unset Implicit Arguments.

Section RuntimeFacts.

Lemma Qgtb_lt (a b : Q) : Qgtb a b = true <-> (b < a)%Q.
Proof.
  unfold Qgtb. rewrite negb_true_iff.
  split; intro H.
  - apply Qnot_le_lt. intro Hle. apply Qle_bool_iff in Hle. congruence.
  - destruct (Qle_bool a b) eqn:E; [|reflexivity].
    apply Qle_bool_iff in E. exfalso. exact (Qlt_not_le _ _ H E).
Qed.

Lemma Qgtb_le (a b : Q) : Qgtb a b = false <-> (a <= b)%Q.
Proof.
  unfold Qgtb. rewrite negb_false_iff. apply Qle_bool_iff.
Qed.

Lemma Qgtb_dec_agree (a b : Q) :
  Qgtb a b = if Qlt_le_dec b a then true else false.
Proof.
  destruct (Qlt_le_dec b a) as [H|H].
  - now apply Qgtb_lt.
  - now apply Qgtb_le.
Qed.

Lemma str_in_In (x : string) (l : list string) : str_in x l = true <-> In x l.
Proof.
  unfold str_in. rewrite existsb_exists. split.
  - intros [y [Hy E]]. apply String.eqb_eq in E. now subst.
  - intro H. exists x. split; [assumption | apply String.eqb_refl].
Qed.

Lemma str_in_dec_agree (x : string) (l : list string) :
  str_in x l = if in_dec string_dec x l then true else false.
Proof.
  destruct (in_dec string_dec x l) as [H|H].
  - now apply str_in_In.
  - destruct (str_in x l) eqn:E; [|reflexivity].
    apply str_in_In in E. contradiction.
Qed.

(** [startswith] and [contains] against concatenation. *)

Lemma startswith_spec (p s : string) :
  startswith p s = true <-> exists post, s = String.append p post.
Proof.
  revert s. induction p as [|a p IH]; intro s; simpl.
  - split; [intros _; now exists s | reflexivity].
  - destruct s as [|b s].
    + split; [discriminate | intros [post H]; discriminate].
    + rewrite andb_true_iff, IH. split.
      * intros [E [post ->]]. apply Ascii.eqb_eq in E. subst. now exists post.
      * intros [post H]. injection H as -> ->. split.
        -- apply Ascii.eqb_refl.
        -- now exists post.
Qed.

Lemma contains_spec (sub s : string) :
  contains sub s = true <->
  exists pre post, s = String.append pre (String.append sub post).
Proof.
  induction s as [|c s IH].
  - simpl. rewrite orb_false_r, startswith_spec. split.
    + intros [post H]. now exists EmptyString, post.
    + intros [pre [post H]]. destruct pre; simpl in H.
      * now exists post.
      * discriminate.
  - cbn [contains]. rewrite orb_true_iff, startswith_spec, IH. split.
    + intros [[post H] | [pre [post H]]].
      * now exists EmptyString, post.
      * exists (String c pre), post. simpl. now rewrite H.
    + intros [pre [post H]]. destruct pre as [|c' pre]; simpl in H.
      * left. now exists post.
      * right. injection H as _ H. now exists pre, post.
Qed.

(** A dict built by setting fresh keys grows at its end. *)

Lemma dict_set_fresh {V : Type} (d : dict V) (k : string) (v : V) :
  ~ In k (keys d) -> dict_set d k v = d ++ [(k, v)].
Proof.
  induction d as [|[k' v'] d IH]; simpl; intro H.
  - reflexivity.
  - destruct (String.eqb k' k) eqn:E.
    + apply String.eqb_eq in E. exfalso. apply H. now left.
    + rewrite IH; [reflexivity | tauto].
Qed.

(** [sorted_asc] and [sorted_desc] only rearrange. *)

Lemma insert_asc_Forall {A : Type} (key : A -> Q) (P : A -> Prop) (x : A) (l : list A) :
  P x -> Forall P l -> Forall P (insert_asc key x l).
Proof.
  intros Hx Hl. induction Hl as [|y l Hy Hl IH]; simpl.
  - now constructor.
  - destruct (Qgtb (key x) (key y)); repeat constructor; assumption.
Qed.

Lemma sorted_asc_Forall {A : Type} (key : A -> Q) (P : A -> Prop) (l : list A) :
  Forall P l -> Forall P (sorted_asc key l).
Proof.
  induction 1; simpl; [constructor | now apply insert_asc_Forall].
Qed.

End RuntimeFacts.

(* ================================================================== *)
(** ** Colorblindness impact evaluator                                 *)
(* ================================================================== *)

Section ImpactEvaluator.

Import color_analyzer.

Import Closed.

Lemma found_problematic_eq (problematic : list string) (l : dict Q)
  (acc : list (string * Q)) :
  fold_left
    (fun found (item : string * Q) =>
       let '(color_name, percentage) := item in
       if str_in color_name problematic && Qgtb percentage 10
       then found ++ [(display_name color_name, percentage)]
       else found) l acc
  = acc ++ map (fun item => (display_name (fst item), snd item))
               (filter (flagged problematic) l).
Proof.
  revert acc. induction l as [|[name pct] l IH]; intro acc; simpl.
  - now rewrite app_nil_r.
  - rewrite IH. unfold flagged at 2. cbn [fst snd].
    destruct (str_in name problematic && Qgtb pct 10); simpl.
    + now rewrite <- app_assoc.
    + reflexivity.
Qed.

Lemma flagged_matching (t : ColorBlindnessType) (l : dict Q) :
  keys (filter (flagged (problematic_colors t)) l) = Spec.matching_buckets l t.
Proof.
  unfold Spec.matching_buckets. f_equal. apply filter_ext. intros [name pct].
  unfold flagged. cbn [fst snd].
  rewrite str_in_dec_agree, Qgtb_dec_agree.
  destruct (in_dec string_dec name (problematic_colors t)); reflexivity.
Qed.

Lemma shown_names (found : dict Q) :
  map fst (firstn 2 (map (fun item => (display_name (fst item), snd item)) found))
  = map display_name (firstn 2 (keys found)).
Proof.
  unfold keys. now rewrite !firstn_map, !map_map.
Qed.

Lemma is_problematic_for_user_impact (detected_colors : dict Q)
  (t : ColorBlindnessType) :
  is_problematic_for_user detected_colors t = Spec.impact detected_colors t.
Proof.
  unfold is_problematic_for_user, Spec.impact.
  destruct (problematic_colors t) as [|p ps] eqn:Hp; [reflexivity|].
  rewrite found_problematic_eq. rewrite app_nil_l.
  rewrite <- flagged_matching, Hp.
  rewrite shown_names.
  destruct (filter (flagged (p :: ps)) detected_colors) as [|item found'];
    reflexivity.
Qed.

(** C2.  For every breakdown and every profile [is_problematic_for_user]
    returns (false, null) when the profile's problematic set is empty or no
    bucket of the breakdown is both in that set and above 10 percent, and
    otherwise (true, "Contains <n1>, <n2> - may be difficult to see") over the
    display names of the first at most two such buckets in breakdown order;
    the breakdown {red_low: 40.0} under protanopia gives
    (true, "Contains red - may be difficult to see"). *)
Theorem is_problematic_for_user_correct :
  (forall (detected_colors : dict Q) (t : ColorBlindnessType),
      is_problematic_for_user detected_colors t
      = match problematic_colors t, Spec.matching_buckets detected_colors t with
        | [], _ => (false, None)
        | _ :: _, [] => (false, None)
        | _ :: _, n1 :: rest =>
            (true,
             Some (String.append "Contains "
                     (String.append
                        (join ", " (map display_name (firstn 2 (n1 :: rest))))
                        " - may be difficult to see")))
        end)
  /\ (forall detected_colors : dict Q,
         problematic_colors NORMAL = [] /\
         is_problematic_for_user detected_colors NORMAL = (false, None))
  /\ is_problematic_for_user [("red_low", 40%Q)] PROTANOPIA
     = (true, Some "Contains red - may be difficult to see").
Proof.
  split; [|split].
  - intros detected_colors t. apply is_problematic_for_user_impact.
  - intro detected_colors. split; reflexivity.
  - reflexivity.
Qed.

(** Green at 12 percent is flagged for deuteranomaly, yellow at 8 is not. *)
Example green_above_yellow_below :
  is_problematic_for_user [("green", 12%Q); ("yellow", 8%Q)] DEUTERANOMALY
  = (true, Some "Contains green - may be difficult to see").
Proof. reflexivity. Qed.

(** Both red ranges show under the same display name. *)
Example both_reds :
  is_problematic_for_user [("red_low", 30%Q); ("red_high", 20%Q); ("green", 15%Q)]
    PROTANOPIA
  = (true, Some "Contains red, red - may be difficult to see").
Proof. reflexivity. Qed.

(** The warning is null exactly when the verdict is false. *)
Lemma warning_iff_problematic (detected_colors : dict Q) (t : ColorBlindnessType) :
  snd (is_problematic_for_user detected_colors t) = None
  <-> fst (is_problematic_for_user detected_colors t) = false.
Proof.
  rewrite is_problematic_for_user_impact. unfold Spec.impact.
  destruct (problematic_colors t); [tauto|].
  destruct (Spec.matching_buckets detected_colors t); simpl.
  - tauto.
  - split; discriminate.
Qed.

End ImpactEvaluator.

(* ================================================================== *)
(** ** Final priority                                                  *)
(* ================================================================== *)

Section FinalPriority.

Import main.

Lemma mentions_existsb (keywords : list string) (label : string) :
  existsb (fun obj => contains obj (lower label)) keywords = true
  <-> Spec.mentions keywords label.
Proof.
  unfold Spec.mentions. rewrite existsb_exists. split.
  - intros [kw [Hin Hc]]. apply contains_spec in Hc.
    destruct Hc as [pre [post E]]. now exists kw, pre, post.
  - intros [kw [pre [post [Hin E]]]]. exists kw. split; [assumption|].
    apply contains_spec. now exists pre, post.
Qed.

Lemma mentions_existsb_false (keywords : list string) (label : string) :
  existsb (fun obj => contains obj (lower label)) keywords = false
  <-> ~ Spec.mentions keywords label.
Proof.
  rewrite <- mentions_existsb.
  destruct (existsb _ keywords); split; congruence.
Qed.

Lemma determine_priority_in_table (label : string) (is_problematic : bool) :
  Spec.priority_table label is_problematic
    (determine_priority label is_problematic).
Proof.
  unfold determine_priority.
  destruct (existsb _ critical_objects) eqn:Hc.
  - apply mentions_existsb in Hc.
    destruct is_problematic; now constructor.
  - apply mentions_existsb_false in Hc.
    destruct (existsb _ high_objects) eqn:Hh.
    + apply mentions_existsb in Hh.
      destruct is_problematic; now constructor.
    + apply mentions_existsb_false in Hh.
      destruct is_problematic; now constructor.
Qed.

Lemma priority_table_functional (label : string) (b : bool) (p q : string) :
  Spec.priority_table label b p -> Spec.priority_table label b q -> p = q.
Proof.
  intros Hp Hq. destruct Hp; inversion Hq; subst; try reflexivity; contradiction.
Qed.

(** C3.  [determine_priority] returns exactly the value of the six-row
    table: a label that contains, ignoring case, a critical keyword gives
    critical when problematic and high otherwise; failing that, a label that
    contains a high keyword gives high or normal; any other label gives
    normal or low.  The label "stop sign" gives critical when problematic
    and high otherwise. *)
Theorem determine_priority_table :
  (forall (label : string) (is_problematic : bool) (p : string),
      determine_priority label is_problematic = p
      <-> Spec.priority_table label is_problematic p)
  /\ determine_priority "stop sign" true = "critical"
  /\ determine_priority "stop sign" false = "high".
Proof.
  split; [|split; reflexivity].
  intros label b p. split.
  - intros <-. apply determine_priority_in_table.
  - intro H. eapply priority_table_functional; [|exact H].
    apply determine_priority_in_table.
Qed.

End FinalPriority.

(* ================================================================== *)
(** ** Palette classifier                                              *)
(* ================================================================== *)

Section PaletteClassifier.

Import color_analyzer.

(** *** Arrays and their entries *)

Lemma entries_length_rows {A : Type} (g : nat -> nat -> A) (cols : nat) (rows : list nat) :
  length (flat_map (fun i => map (g i) (seq 0 cols)) rows) = (length rows * cols)%nat.
Proof.
  induction rows as [|i rows IH]; simpl.
  - reflexivity.
  - now rewrite length_app, length_map, length_seq, IH.
Qed.

Lemma entries_length {A : Type} (a : ndarray A) :
  length (entries a) = (shape0 a * shape1 a)%nat.
Proof.
  unfold entries. now rewrite entries_length_rows, length_seq.
Qed.

Lemma entries_map {A B : Type} (f : A -> B) (a : ndarray A) :
  entries (Ndarray (shape0 a) (shape1 a) (fun i j => f (at_ a i j)))
  = map f (entries a).
Proof.
  unfold entries. simpl.
  induction (seq 0 (shape0 a)) as [|i rows IH]; simpl.
  - reflexivity.
  - now rewrite map_app, map_map, IH.
Qed.

Lemma entries_In {A : Type} (a : ndarray A) (p : A) :
  In p (entries a) ->
  exists i j, (i < shape0 a)%nat /\ (j < shape1 a)%nat /\ p = at_ a i j.
Proof.
  unfold entries. rewrite in_flat_map. intros [i [Hi Hp]].
  apply in_map_iff in Hp. destruct Hp as [j [E Hj]].
  apply in_seq in Hi. apply in_seq in Hj.
  exists i, j. repeat split; [lia | lia | now symmetry].
Qed.

Lemma countNonZero_inRange (roi : image) (lower upper : hsv) :
  countNonZero (inRange roi lower upper) = Spec.matching_pixels roi lower upper.
Proof.
  unfold countNonZero, inRange, Spec.matching_pixels.
  rewrite (entries_map (fun p => if in_range lower upper p then 255 else 0) roi).
  induction (entries roi) as [|p ps IH]; simpl.
  - reflexivity.
  - destruct (in_range lower upper p); simpl; now rewrite IH.
Qed.

(** *** Rounding *)

Lemma round_half_even_comp (q q' : Q) :
  (q == q')%Q -> round_half_even q = round_half_even q'.
Proof.
  intro E. unfold round_half_even.
  rewrite (Qfloor_comp _ _ E).
  assert (E' : (q - inject_Z (Qfloor q') == q' - inject_Z (Qfloor q'))%Q)
    by now rewrite E.
  now rewrite (Qcompare_comp _ _ E' _ _ (Qeq_refl (1 # 2))).
Qed.

Lemma round1_comp (q q' : Q) : (q == q')%Q -> round1 q = round1 q'.
Proof.
  intro E. unfold round1.
  rewrite (round_half_even_comp (q * 10) (q' * 10)); [reflexivity|].
  now rewrite E.
Qed.

Lemma round_half_even_upper (q : Q) :
  (inject_Z (round_half_even q) <= q + (1 # 2))%Q.
Proof.
  unfold round_half_even.
  pose proof (Qfloor_le q) as Hf.
  destruct (Qcompare (q - inject_Z (Qfloor q)) (1 # 2)) eqn:C.
  - apply Qeq_alt in C.
    destruct (Z.even (Qfloor q)); [lra|].
    rewrite inject_Z_plus. change (inject_Z 1) with 1%Q. lra.
  - lra.
  - apply Qgt_alt in C.
    rewrite inject_Z_plus. change (inject_Z 1) with 1%Q. lra.
Qed.

Lemma round1_upper (q : Q) : (round1 q <= q + (1 # 20))%Q.
Proof.
  unfold round1. rewrite Qred_correct.
  pose proof (round_half_even_upper (q * 10)) as H.
  rewrite (Qmake_Qdiv (round_half_even (q * 10)) 10).
  change (inject_Z (Zpos 10)) with 10%Q.
  apply Qle_shift_div_r; [reflexivity|]. lra.
Qed.

End PaletteClassifier.

(* ================================================================== *)
(** ** Floats                                                          *)
(* ================================================================== *)

Section FloatFacts.

Import Closed.

Lemma round_half_even_lower (q : Q) :
  (q - (1 # 2) <= inject_Z (round_half_even q))%Q.
Proof.
  unfold round_half_even.
  pose proof (Qlt_floor q) as Hf.
  rewrite inject_Z_plus in Hf. change (inject_Z 1) with 1%Q in Hf.
  destruct (Qcompare (q - inject_Z (Qfloor q)) (1 # 2)) eqn:C.
  - apply Qeq_alt in C.
    destruct (Z.even (Qfloor q)); [lra|].
    rewrite inject_Z_plus. change (inject_Z 1) with 1%Q. lra.
  - apply Qlt_alt in C. lra.
  - rewrite inject_Z_plus. change (inject_Z 1) with 1%Q. lra.
Qed.

Lemma two_power_pos (e : Z) : (0 < 2 ^ e)%Q.
Proof. apply Qpower_0_lt. reflexivity. Qed.

Lemma two_power_cancel (e : Z) : (2 ^ (- e) * 2 ^ e == 1)%Q.
Proof.
  rewrite <- Qpower_plus by discriminate.
  now replace (- e + e) with 0 by lia.
Qed.

(** Rounding a significand of at least [2 ^ 51]. *)
Lemma scaled_rounding (q : Q) (e : Z) :
  (0 < q)%Q -> (2 ^ 51 <= q * 2 ^ (- e))%Q ->
  (0 <= inject_Z (round_half_even (q * 2 ^ (- e))) * 2 ^ e
   /\ inject_Z (round_half_even (q * 2 ^ (- e))) * 2 ^ e
      <= q * (1 + ulp_bound))%Q.
Proof.
  intros Hq Hs.
  pose proof (two_power_pos e) as HP.
  pose proof (two_power_cancel e) as Hc.
  set (P := (2 ^ e)%Q) in *. set (s := (q * 2 ^ (- e))%Q) in *.
  assert (HsP : (s * P == q)%Q).
  { unfold s. rewrite <- Qmult_assoc, Hc. ring. }
  pose proof (round_half_even_lower s) as Hl.
  pose proof (round_half_even_upper s) as Hu.
  set (m := inject_Z (round_half_even s)) in *.
  assert (H51 : (2 ^ 51 == 2251799813685248)%Q) by reflexivity.
  rewrite H51 in Hs.
  assert (Hm : (0 <= m)%Q) by lra.
  split.
  - apply Qmult_le_0_compat; [exact Hm | now apply Qlt_le_weak].
  - assert (H1 : (m * P <= (s + (1 # 2)) * P)%Q).
    { apply Qmult_le_compat_r; [exact Hu | now apply Qlt_le_weak]. }
    assert (H2 : (2251799813685248 * P <= s * P)%Q).
    { apply Qmult_le_compat_r; [exact Hs | now apply Qlt_le_weak]. }
    assert (E : ((s + (1 # 2)) * P == s * P + (1 # 2) * P)%Q) by ring.
    rewrite E, HsP in H1. rewrite HsP in H2.
    unfold ulp_bound. lra.
Qed.

(** The exponent read off the binary logarithms leaves at least 51 bits. *)
Lemma log2_exponent (q : Q) :
  (0 < q)%Q ->
  (2 ^ 51
   <= q * 2 ^ (- (Z.log2 (Qnum q) - Z.log2 (Zpos (Qden q)) - 52)))%Q.
Proof.
  intro Hq. destruct q as [n d]. cbn [Qnum Qden].
  assert (Hn : 0 < n).
  { unfold Qlt in Hq. simpl in Hq. lia. }
  destruct (Z.log2_spec n Hn) as [Ha _].
  destruct (Z.log2_spec (Zpos d) ltac:(lia)) as [_ Hb].
  set (a := Z.log2 n) in *. set (b := Z.log2 (Zpos d)) in *.
  assert (Ha0 : 0 <= a) by apply Z.log2_nonneg.
  assert (Hb0 : 0 <= b) by apply Z.log2_nonneg.
  replace (- (a - b - 52)) with (Z.succ b + 51 + - a) by lia.
  rewrite !Qpower_plus by discriminate. rewrite Qpower_opp.
  rewrite (Qmake_Qdiv n d).
  pose proof (two_power_pos a) as HA. pose proof (two_power_pos (Z.succ b)) as HB.
  assert (HN : (2 ^ a <= inject_Z n)%Q).
  { change 2%Q with (inject_Z 2). rewrite <- Zpower_Qpower by exact Ha0.
    rewrite <- Zle_Qle. exact Ha. }
  assert (HD : (inject_Z (Zpos d) <= 2 ^ Z.succ b)%Q).
  { change 2%Q with (inject_Z 2). rewrite <- Zpower_Qpower by lia.
    rewrite <- Zle_Qle. lia. }
  assert (HD0 : (0 < inject_Z (Zpos d))%Q).
  { change 0%Q with (inject_Z 0). rewrite <- Zlt_Qlt. lia. }
  set (A := (2 ^ a)%Q) in *. set (B := (2 ^ Z.succ b)%Q) in *.
  set (N := inject_Z n) in *. set (D := inject_Z (Zpos d)) in *.
  assert (H1 : (1 <= N * / A)%Q).
  { apply (Qle_shift_div_l 1 N A HA). lra. }
  assert (H2 : (1 <= B * / D)%Q).
  { apply (Qle_shift_div_l 1 B D HD0). lra. }
  assert (E : (N / D * (B * 2 ^ 51 * / A) == 2 ^ 51 * ((N * / A) * (B * / D)))%Q).
  { unfold Qdiv. ring. }
  rewrite E.
  assert (H3 : (1 <= (N * / A) * (B * / D))%Q).
  { apply Qle_trans with (1 * (B * / D))%Q; [lra|].
    apply Qmult_le_compat_r; [exact H1 | lra]. }
  assert (H51 : (2 ^ 51 == 2251799813685248)%Q) by reflexivity.
  rewrite H51. lra.
Qed.

Lemma fl_pos_bounds (q : Q) :
  (0 < q)%Q -> (0 <= fl_pos q /\ fl_pos q <= q * (1 + ulp_bound))%Q.
Proof.
  intro Hq. unfold fl_pos.
  pose proof (log2_exponent q Hq) as H0.
  set (e0 := Z.log2 (Qnum q) - Z.log2 (Zpos (Qden q)) - 52) in *.
  destruct (Qle_bool (2 ^ 52) (q * 2 ^ (- e0))) eqn:T.
  - apply scaled_rounding; assumption.
  - apply scaled_rounding; [assumption|].
    replace (- (e0 - 1)) with (- e0 + 1) by lia.
    rewrite Qpower_plus by discriminate.
    assert (H51 : (2 ^ 51 == 2251799813685248)%Q) by reflexivity.
    rewrite H51 in *. change (2 ^ 1)%Q with 2%Q.
    set (s := (q * 2 ^ (- e0))%Q) in *.
    assert (E : (q * (2 ^ (- e0) * 2) == s * 2)%Q) by (unfold s; ring).
    rewrite E. lra.
Qed.

(** Rounding keeps a non-negative number non-negative and raises it by a
    factor of at most [1 + 2 ^ -52]. *)
Lemma fl_bounds (q : Q) :
  (0 <= q)%Q -> (0 <= fl q /\ fl q <= q * (1 + ulp_bound))%Q.
Proof.
  intro Hq. unfold fl.
  destruct (Qcompare_spec (Qred q) 0) as [E | E | E].
  - unfold ulp_bound. lra.
  - rewrite Qred_correct in E. exfalso. exact (Qlt_not_le _ _ E Hq).
  - rewrite Qred_correct.
    destruct (fl_pos_bounds (Qred q) E) as [H1 H2].
    rewrite Qred_correct in H2 at 2. now split.
Qed.

Lemma scaled_rounding_lower (q : Q) (e : Z) :
  (0 < q)%Q -> (2 ^ 51 <= q * 2 ^ (- e))%Q ->
  (q * (1 - ulp_bound)
   <= inject_Z (round_half_even (q * 2 ^ (- e))) * 2 ^ e)%Q.
Proof.
  intros Hq Hs.
  pose proof (two_power_pos e) as HP.
  pose proof (two_power_cancel e) as Hc.
  set (P := (2 ^ e)%Q) in *. set (s := (q * 2 ^ (- e))%Q) in *.
  assert (HsP : (s * P == q)%Q).
  { unfold s. rewrite <- Qmult_assoc, Hc. ring. }
  pose proof (round_half_even_lower s) as Hl.
  set (m := inject_Z (round_half_even s)) in *.
  assert (H51 : (2 ^ 51 == 2251799813685248)%Q) by reflexivity.
  rewrite H51 in Hs.
  assert (H1 : ((s - (1 # 2)) * P <= m * P)%Q).
  { apply Qmult_le_compat_r; [exact Hl | now apply Qlt_le_weak]. }
  assert (H2 : (2251799813685248 * P <= s * P)%Q).
  { apply Qmult_le_compat_r; [exact Hs | now apply Qlt_le_weak]. }
  assert (E : ((s - (1 # 2)) * P == s * P - (1 # 2) * P)%Q) by ring.
  rewrite E, HsP in H1. rewrite HsP in H2.
  unfold ulp_bound. lra.
Qed.

Lemma fl_pos_lower (q : Q) :
  (0 < q)%Q -> (q * (1 - ulp_bound) <= fl_pos q)%Q.
Proof.
  intro Hq. unfold fl_pos.
  pose proof (log2_exponent q Hq) as H0.
  set (e0 := Z.log2 (Qnum q) - Z.log2 (Zpos (Qden q)) - 52) in *.
  destruct (Qle_bool (2 ^ 52) (q * 2 ^ (- e0))) eqn:T.
  - apply scaled_rounding_lower; assumption.
  - apply scaled_rounding_lower; [assumption|].
    replace (- (e0 - 1)) with (- e0 + 1) by lia.
    rewrite Qpower_plus by discriminate.
    assert (H51 : (2 ^ 51 == 2251799813685248)%Q) by reflexivity.
    rewrite H51 in *. change (2 ^ 1)%Q with 2%Q.
    set (s := (q * 2 ^ (- e0))%Q) in *.
    assert (E : (q * (2 ^ (- e0) * 2) == s * 2)%Q) by (unfold s; ring).
    rewrite E. lra.
Qed.

(** Rounding lowers a non-negative number by a factor of at most
    [1 - 2 ^ -52]. *)
Lemma fl_lower (q : Q) : (0 <= q)%Q -> (q * (1 - ulp_bound) <= fl q)%Q.
Proof.
  intro Hq. unfold fl.
  destruct (Qcompare_spec (Qred q) 0) as [E | E | E].
  - rewrite Qred_correct in E. rewrite E. unfold ulp_bound. lra.
  - rewrite Qred_correct in E. exfalso. exact (Qlt_not_le _ _ E Hq).
  - rewrite Qred_correct.
    pose proof (fl_pos_lower (Qred q) E) as H.
    now rewrite Qred_correct in H at 1.
Qed.

(** Equal rationals round to the same float. *)
Lemma fl_comp (q q' : Q) : (q == q')%Q -> fl q = fl q'.
Proof.
  intro E. unfold fl. now rewrite (Qred_complete q q' E).
Qed.

End FloatFacts.

Section DetectColors.

Import color_analyzer.

Import Closed.


Lemma keys_app {V : Type} (d1 d2 : dict V) : keys (d1 ++ d2) = keys d1 ++ keys d2.
Proof. apply map_app. Qed.

Lemma detect_colors_loop (roi : image) (total : nat) :
  total <> 0%nat ->
  forall (ranges : dict (hsv * hsv)) (acc : dict Q),
    NoDup (keys ranges) ->
    (forall k, In k (keys ranges) -> ~ In k (keys acc)) ->
    for_each ranges (detect_colors_step roi total) acc
    = Ok (acc ++ map (fun b => (fst b, round1 (pct roi total b)))
                     (filter (fun b => Qgtb (pct roi total b) 5) ranges)).
Proof.
  intros Ht ranges. induction ranges as [|[name [lo up]] ranges IH];
    intros acc Hnd Hfresh.
  - simpl. now rewrite app_nil_r.
  - inversion Hnd as [|? ? Hnotin Hnd']; subst.
    cbn [for_each detect_colors_step]. unfold true_div.
    replace (Z.of_nat total =? 0) with false by (symmetry; apply Z.eqb_neq; lia).
    cbn [bind filter fst snd].
    destruct (Qgtb _ 5) eqn:E; cbn [bind].
    + rewrite dict_set_fresh by (apply Hfresh; now left).
      rewrite IH; [| assumption |].
      * cbn [map fst snd]. now rewrite <- app_assoc.
      * intros k Hk. rewrite keys_app. simpl. intro Hin.
        apply in_app_or in Hin. destruct Hin as [Hin | [<- | []]].
        -- revert Hin. apply Hfresh. now right.
        -- contradiction.
    + apply IH; [assumption|]. intros k Hk. apply Hfresh. now right.
Qed.

Lemma COLOR_RANGES_NoDup : NoDup (keys COLOR_RANGES).
Proof.
  repeat constructor; simpl; intuition discriminate.
Qed.

Lemma detect_colors_eq (roi : image) :
  size roi <> 0%nat ->
  detect_colors roi
  = Ok (map (fun b => (fst b, round1 (pct roi (shape0 roi * shape1 roi)%nat b)))
            (filter (fun b => Qgtb (pct roi (shape0 roi * shape1 roi)%nat b) 5)
                    COLOR_RANGES)).
Proof.
  intro Hs. unfold detect_colors.
  replace (size roi =? 0)%nat with false by (symmetry; now apply Nat.eqb_neq).
  rewrite detect_colors_loop.
  - reflexivity.
  - unfold size in Hs. lia.
  - exact COLOR_RANGES_NoDup.
  - intros k _ [].
Qed.

(** [detect_colors] never raises. *)
Lemma detect_colors_total (roi : image) :
  exists breakdown, detect_colors roi = Ok breakdown.
Proof.
  destruct (Nat.eq_dec (size roi) 0) as [E | E].
  - exists []. unfold detect_colors. now rewrite E.
  - eexists. now apply detect_colors_eq.
Qed.

Lemma pct_float (roi : image) (name : string) (lower upper : hsv) :
  pct roi (shape0 roi * shape1 roi) (name, (lower, upper))
  = Spec.float_percentage roi lower upper.
Proof.
  unfold pct, Spec.float_percentage, Spec.total_pixels. cbn [fst snd].
  now rewrite countNonZero_inRange, entries_length.
Qed.



(** 23 red pixels of 80: the quotient 0.2875 is not a binary fraction, the
    product is the float just below 28.75 and the value kept is 28.7. *)
Example red_23_of_80 :
  Spec.float_percentage (Examples.leading 8 10 23 Examples.red Examples.grey)
    (HSV 0 100 100) (HSV 10 255 255)
  = (8092405580431359 # 281474976710656)%Q
  /\ detect_colors (Examples.leading 8 10 23 Examples.red Examples.grey)
     = Ok [("red_low", (287 # 10)%Q)].
Proof. split; vm_compute; reflexivity. Qed.

(** 201 green pixels of 2000: the product is the float just above 10.05, the
    value kept is 10.1, and the region is flagged under deuteranomaly. *)
Example green_201_of_2000 :
  detect_colors (Examples.leading 40 50 201 Examples.green Examples.grey)
  = Ok [("green", (101 # 10)%Q)]
  /\ analyze_region (Examples.leading 40 50 201 Examples.green Examples.grey)
       DEUTERANOMALY
     = Ok {| dominant_colors := ["green"];
             is_problematic := true;
             warning := Some "Contains green - may be difficult to see";
             color_breakdown := Some [("green", (101 # 10)%Q)] |}.
Proof. split; vm_compute; reflexivity. Qed.

End DetectColors.

Section BreakdownTotal.

Import color_analyzer Closed.

(** C6.  A region with zero pixels gets an empty breakdown from
    [detect_colors], with no exception, and [analyze_region] reports no
    dominant colour, a false verdict and no warning for every profile; so
    does the impact evaluator on the empty breakdown. *)
Theorem empty_region_is_neutral (roi : image) :
  (shape0 roi * shape1 roi = 0)%nat ->
  detect_colors roi = Ok []
  /\ forall t : ColorBlindnessType,
       is_problematic_for_user [] t = (false, None)
       /\ exists info,
            analyze_region roi t = Ok info
            /\ dominant_colors info = []
            /\ is_problematic info = false
            /\ warning info = None.
Proof.
  intro Hz.
  assert (Hs : (size roi =? 0)%nat = true)
    by (apply Nat.eqb_eq; unfold size; now rewrite Hz).
  split.
  - unfold detect_colors. now rewrite Hs.
  - intro t. split.
    + unfold is_problematic_for_user. now destruct (problematic_colors t).
    + unfold analyze_region. rewrite Hs. eexists. repeat split.
Qed.

Lemma empty_region_is_neutral_witness :
  (shape0 (Examples.uniform 0 7 Examples.red)
   * shape1 (Examples.uniform 0 7 Examples.red) = 0)%nat
  /\ detect_colors (Examples.uniform 0 7 Examples.red) = Ok [].
Proof.
  split.
  - reflexivity.
  - apply (empty_region_is_neutral (Examples.uniform 0 7 Examples.red)).
    reflexivity.
Defined.

(** *** Each pixel off the shared hues lies in at most one bucket *)

Ltac boolZ H :=
  repeat match type of H with
  | (_ && _) = true => apply andb_true_iff in H; destruct H as [? H]
  end;
  repeat match goal with
  | E : (_ && _) = true |- _ => apply andb_true_iff in E; destruct E as [? ?]
  | E : (_ <=? _) = true |- _ => apply Z.leb_le in E
  end.

Lemma single_bucket (p : hsv) :
  ~ Spec.on_shared_boundary p -> (length (Spec.buckets_of p) <= 1)%nat.
Proof.
  destruct p as [h s v]. unfold Spec.on_shared_boundary, Spec.shared_hues.
  cbn [hue sat val In]. intro Hoff.
  unfold Spec.buckets_of, COLOR_RANGES, keys. cbn [filter fst snd].
  unfold in_range. cbn [hue sat val].
  repeat match goal with
  | |- context [if ?c then _ else _] =>
      let E := fresh "E" in
      destruct c eqn:E; [boolZ E; try (exfalso; lia) | clear E]
  end;
  simpl; lia.
Qed.

(** *** Counting by bucket and counting by pixel *)

Lemma list_sum_plus {A : Type} (g h : A -> nat) (l : list A) :
  list_sum (map (fun a => g a + h a)%nat l)
  = (list_sum (map g l) + list_sum (map h l))%nat.
Proof.
  induction l as [|a l IH]; simpl; [reflexivity | rewrite IH; lia].
Qed.

Lemma list_sum_indicator {A : Type} (f : A -> bool) (l : list A) :
  list_sum (map (fun a => if f a then 1 else 0)%nat l) = length (filter f l).
Proof.
  induction l as [|a l IH]; simpl; [reflexivity|].
  destruct (f a); simpl; now rewrite IH.
Qed.

Lemma count_swap {A B : Type} (f : A -> B -> bool) (bs : list A) (ps : list B) :
  list_sum (map (fun b => length (filter (f b) ps)) bs)
  = list_sum (map (fun p => length (filter (fun b => f b p) bs)) ps).
Proof.
  induction ps as [|p ps IH]; simpl.
  - induction bs; simpl; [reflexivity | assumption].
  - rewrite <- IH, <- list_sum_indicator, <- list_sum_plus.
    f_equal. apply map_ext. intro b. destruct (f b p); reflexivity.
Qed.

Lemma list_sum_bounded {A : Type} (g : A -> nat) (l : list A) :
  (forall a, In a l -> (g a <= 1)%nat) -> (list_sum (map g l) <= length l)%nat.
Proof.
  induction l as [|a l IH]; simpl; intro H; [lia|].
  specialize (IH (fun a' Ha' => H a' (or_intror Ha'))).
  specialize (H a (or_introl eq_refl)). lia.
Qed.

(** Matching pixels, summed over the catalogue, never exceed the pixels. *)
Lemma matching_pixels_total (roi : image) :
  Spec.off_boundaries roi ->
  (list_sum (map (fun b => Spec.matching_pixels roi (fst (snd b)) (snd (snd b)))
                 COLOR_RANGES)
   <= Spec.total_pixels roi)%nat.
Proof.
  intro Hoff. unfold Spec.matching_pixels, Spec.total_pixels.
  rewrite (count_swap (fun b p => in_range (fst (snd b)) (snd (snd b)) p)).
  apply list_sum_bounded. intros p Hp.
  apply entries_In in Hp. destruct Hp as [i [j [Hi [Hj ->]]]].
  pose proof (single_bucket (at_ roi i j) (Hoff i j Hi Hj)) as H.
  unfold Spec.buckets_of, keys in H. now rewrite length_map in H.
Qed.

End BreakdownTotal.

(* ================================================================== *)
(** ** Sorting                                                         *)
(* ================================================================== *)

Section SortedFacts.

Context {A : Type} (key : A -> Q).

(** [b] may follow [a] in a descending list. *)
Let desc (a b : A) : Prop := (key b <= key a)%Q.

Lemma insert_desc_perm (x : A) (l : list A) :
  Permutation (x :: l) (insert_desc key x l).
Proof.
  induction l as [|y l IH]; simpl.
  - apply Permutation_refl.
  - destruct (Qgtb (key y) (key x)).
    + eapply perm_trans; [apply perm_swap|]. now apply perm_skip.
    + apply Permutation_refl.
Qed.

Lemma sorted_desc_perm (l : list A) : Permutation l (sorted_desc key l).
Proof.
  induction l as [|x l IH]; simpl.
  - constructor.
  - eapply perm_trans; [apply perm_skip, IH | apply insert_desc_perm].
Qed.

Lemma insert_desc_sorted (x : A) (l : list A) :
  StronglySorted desc l -> StronglySorted desc (insert_desc key x l).
Proof.
  induction 1 as [|y l Hl IH Hy]; simpl.
  - repeat constructor.
  - destruct (Qgtb (key y) (key x)) eqn:E.
    + constructor; [exact IH|].
      apply Qgtb_lt in E.
      rewrite Forall_forall in *. intros z Hz.
      apply (Permutation_in _ (Permutation_sym (insert_desc_perm x l))) in Hz.
      destruct Hz as [<- | Hz]; [now apply Qlt_le_weak | now apply Hy].
    + apply Qgtb_le in E. constructor; [now constructor|].
      constructor; [exact E|].
      rewrite Forall_forall in *. intros z Hz. unfold desc.
      apply Qle_trans with (key y); [now apply Hy | exact E].
Qed.

(** [sorted(l, key=key, reverse=True)] is in descending order of key. *)
Lemma sorted_desc_sorted (l : list A) : StronglySorted desc (sorted_desc key l).
Proof.
  induction l as [|x l IH]; simpl; [constructor | now apply insert_desc_sorted].
Qed.

(** Stability: the elements of one key keep their relative order. *)
Lemma insert_desc_stable (k : Q) (x : A) (l : list A) :
  filter (fun a => Qeq_bool (key a) k) (insert_desc key x l)
  = filter (fun a => Qeq_bool (key a) k) (x :: l).
Proof.
  induction l as [|y l IH]; [reflexivity|].
  cbn [insert_desc]. destruct (Qgtb (key y) (key x)) eqn:E; [|reflexivity].
  cbn [filter] in *. rewrite IH.
  destruct (Qeq_bool (key x) k) eqn:Ex, (Qeq_bool (key y) k) eqn:Ey;
    try reflexivity.
  apply Qeq_bool_iff in Ex. apply Qeq_bool_iff in Ey. apply Qgtb_lt in E.
  rewrite Ex, Ey in E. exfalso. exact (Qlt_irrefl _ E).
Qed.

Lemma sorted_desc_stable (k : Q) (l : list A) :
  filter (fun a => Qeq_bool (key a) k) (sorted_desc key l)
  = filter (fun a => Qeq_bool (key a) k) l.
Proof.
  induction l as [|x l IH]; [reflexivity|].
  cbn [sorted_desc]. rewrite insert_desc_stable. cbn [filter]. now rewrite IH.
Qed.

End SortedFacts.

Section BreakdownBound.

Import color_analyzer Closed.

Lemma qsum_ext {A : Type} (g h : A -> Q) (l : list A) :
  (forall a, In a l -> (g a == h a)%Q) ->
  (fold_right Qplus 0 (map g l) == fold_right Qplus 0 (map h l))%Q.
Proof.
  induction l as [|a l IH]; simpl; intro H; [reflexivity|].
  rewrite (H a (or_introl eq_refl)), IH; [reflexivity|].
  intros a' Ha'. apply H. now right.
Qed.

Lemma qsum_scaled {A : Type} (m : A -> nat) (t : Q) (l : list A) :
  (fold_right Qplus 0 (map (fun a => inject_Z (Z.of_nat (m a)) / t * 100) l)
   == inject_Z (Z.of_nat (list_sum (map m l))) / t * 100)%Q.
Proof.
  induction l as [|a l IH]; simpl.
  - unfold Qdiv. ring.
  - rewrite IH, Nat2Z.inj_add, inject_Z_plus. unfold Qdiv. ring.
Qed.

(** Off the shared hues the unrounded percentages add up to at most 100. *)
Lemma exact_total_le_100 (roi : image) :
  Spec.off_boundaries roi -> (Spec.exact_total roi <= 100)%Q.
Proof.
  intro Hoff. unfold Spec.exact_total, Spec.percentage.
  rewrite (qsum_scaled
             (fun b => Spec.matching_pixels roi (fst (snd b)) (snd (snd b)))).
  pose proof (matching_pixels_total roi Hoff) as Hle.
  set (s := list_sum _) in *. set (t := Spec.total_pixels roi) in *.
  destruct t as [|t'].
  - replace s with 0%nat by lia. vm_compute. discriminate.
  - assert (Ht : (0 < inject_Z (Z.of_nat (S t')))%Q).
    { change 0%Q with (inject_Z 0). rewrite <- Zlt_Qlt. lia. }
    assert (Hs : (inject_Z (Z.of_nat s) <= inject_Z (Z.of_nat (S t')))%Q).
    { rewrite <- Zle_Qle. lia. }
    assert (Hd : (inject_Z (Z.of_nat s) / inject_Z (Z.of_nat (S t')) <= 1)%Q).
    { apply Qle_shift_div_r; [assumption | lra]. }
    lra.
Qed.

Lemma percentage_nonneg (roi : image) (lower upper : hsv) :
  (0 <= Spec.percentage roi lower upper)%Q.
Proof.
  unfold Spec.percentage.
  assert (Hm : (0 <= inject_Z (Z.of_nat (Spec.matching_pixels roi lower upper)))%Q).
  { change 0%Q with (inject_Z 0). rewrite <- Zle_Qle. lia. }
  assert (Ht : (0 <= / inject_Z (Z.of_nat (Spec.total_pixels roi)))%Q).
  { apply Qinv_le_0_compat. change 0%Q with (inject_Z 0).
    rewrite <- Zle_Qle. lia. }
  unfold Qdiv. pose proof (Qmult_le_0_compat _ _ Hm Ht). lra.
Qed.

(** Rounding every kept entry adds at most a twentieth per catalogue entry. *)
Lemma rounded_sum_bound {A : Type} (g : A -> Q) (keep : A -> bool) (l : list A) :
  (forall a, In a l -> (0 <= g a)%Q) ->
  (fold_right Qplus 0 (map (fun a => round1 (g a)) (filter keep l))
   <= fold_right Qplus 0 (map g l) + inject_Z (Z.of_nat (length l)) * (1 # 20))%Q.
Proof.
  induction l as [|a l IH]; intro Hpos.
  - vm_compute. discriminate.
  - specialize (IH (fun a' Ha' => Hpos a' (or_intror Ha'))).
    specialize (Hpos a (or_introl eq_refl)).
    pose proof (round1_upper (g a)) as Hr.
    cbn [length map fold_right filter].
    rewrite Nat2Z.inj_succ, <- Z.add_1_r, inject_Z_plus.
    change (inject_Z 1) with 1%Q.
    destruct (keep a); cbn [map fold_right]; lra.
Qed.

(** The float percentage is not negative and exceeds the exact one by a
    factor of at most [(1 + 2 ^ -52) ^ 2]. *)
Lemma float_percentage_bounds (roi : image) (lower upper : hsv) :
  (0 <= Spec.float_percentage roi lower upper
   /\ Spec.float_percentage roi lower upper
      <= Spec.percentage roi lower upper
         * ((1 + ulp_bound) * (1 + ulp_bound)))%Q.
Proof.
  unfold Spec.float_percentage, Spec.percentage, float_mul.
  set (r := (inject_Z (Z.of_nat (Spec.matching_pixels roi lower upper))
             / inject_Z (Z.of_nat (Spec.total_pixels roi)))%Q).
  assert (Hr : (0 <= r)%Q).
  { pose proof (percentage_nonneg roi lower upper) as H.
    unfold Spec.percentage in H. fold r in H. lra. }
  destruct (fl_bounds r Hr) as [H1 H2].
  assert (H100 : (0 <= fl r * 100)%Q) by lra.
  destruct (fl_bounds (fl r * 100) H100) as [H3 H4].
  unfold ulp_bound in *. split; [exact H3 | lra].
Qed.

(** The float percentage is the exact one up to two roundings. *)
Lemma float_percentage_close (roi : image) (lower upper : hsv) :
  (Spec.percentage roi lower upper * ((1 - ulp_bound) * (1 - ulp_bound))
   <= Spec.float_percentage roi lower upper
   /\ Spec.float_percentage roi lower upper
      <= Spec.percentage roi lower upper
         * ((1 + ulp_bound) * (1 + ulp_bound)))%Q.
Proof.
  split; [|apply float_percentage_bounds].
  unfold Spec.float_percentage, Spec.percentage, float_mul.
  set (r := (inject_Z (Z.of_nat (Spec.matching_pixels roi lower upper))
             / inject_Z (Z.of_nat (Spec.total_pixels roi)))%Q).
  assert (Hr : (0 <= r)%Q).
  { pose proof (percentage_nonneg roi lower upper) as H.
    unfold Spec.percentage in H. fold r in H. lra. }
  destruct (fl_bounds r Hr) as [H1 _].
  pose proof (fl_lower r Hr) as H2.
  assert (H100 : (0 <= fl r * 100)%Q) by lra.
  pose proof (fl_lower (fl r * 100) H100) as H3.
  unfold ulp_bound in *. lra.
Qed.

Lemma qsum_le {A : Type} (g h : A -> Q) (l : list A) :
  (forall a, In a l -> (g a <= h a)%Q) ->
  (fold_right Qplus 0 (map g l) <= fold_right Qplus 0 (map h l))%Q.
Proof.
  induction l as [|a l IH]; simpl; intro H; [lra|].
  specialize (IH (fun a' Ha' => H a' (or_intror Ha'))).
  specialize (H a (or_introl eq_refl)). lra.
Qed.

Lemma qsum_times {A : Type} (h : A -> Q) (c : Q) (l : list A) :
  (fold_right Qplus 0 (map (fun a => h a * c) l)
   == fold_right Qplus 0 (map h l) * c)%Q.
Proof.
  induction l as [|a l IH]; simpl; [ring | rewrite IH; ring].
Qed.

(** A sum of values rounded to one decimal is a whole number of tenths. *)
Lemma rounded_sum_tenths {A : Type} (g : A -> Q) (l : list A) :
  exists K : Z,
    (fold_right Qplus 0 (map (fun a => round1 (g a)) l) == inject_Z K / 10)%Q.
Proof.
  induction l as [|a l [K IH]].
  - exists 0. reflexivity.
  - exists (round_half_even (g a * 10) + K). cbn [map fold_right].
    rewrite IH. unfold round1. rewrite Qred_correct, Qmake_Qdiv, inject_Z_plus.
    change (inject_Z (Zpos 10)) with 10%Q. unfold Qdiv. ring.
Qed.

(** The rounded values are whole tenths and their sum stays below 100.6, so
    it is at most 100.5: the two float roundings of each percentage do not
    reach the next tenth. *)
Lemma breakdown_total_bound (roi : image) :
  (Spec.exact_total roi <= 100)%Q ->
  (Spec.total_percentage
     (breakdown_of roi (shape0 roi * shape1 roi) COLOR_RANGES)
   <= 100 + (1 # 2))%Q.
Proof.
  intro Hexact.
  unfold Spec.total_percentage, breakdown_of. rewrite map_map. cbn [snd].
  set (keep := fun b => Qgtb (pct roi (shape0 roi * shape1 roi) b) 5).
  pose proof (rounded_sum_bound (pct roi (shape0 roi * shape1 roi)) keep
                COLOR_RANGES) as Hround.
  assert (Hpos : forall b, In b COLOR_RANGES ->
                   (0 <= pct roi (shape0 roi * shape1 roi) b)%Q).
  { intros [name [lo up]] _. rewrite pct_float.
    apply float_percentage_bounds. }
  specialize (Hround Hpos).
  change (inject_Z (Z.of_nat (length COLOR_RANGES))) with 10%Q in Hround.
  assert (Hfloat :
    (fold_right Qplus 0 (map (pct roi (shape0 roi * shape1 roi)) COLOR_RANGES)
     <= Spec.exact_total roi * ((1 + ulp_bound) * (1 + ulp_bound)))%Q).
  { unfold Spec.exact_total. rewrite <- qsum_times. apply qsum_le.
    intros [name [lo up]] _. rewrite pct_float. cbn [fst snd].
    apply float_percentage_bounds. }
  destruct (rounded_sum_tenths (pct roi (shape0 roi * shape1 roi))
              (filter keep COLOR_RANGES)) as [K HK].
  rewrite HK in *.
  assert (HKlt : (inject_Z K < inject_Z 1006)%Q).
  { change (inject_Z 1006) with 1006%Q. unfold ulp_bound in Hfloat.
    unfold Qdiv in Hround. change (/ 10)%Q with (1 # 10)%Q in Hround.
    set (total := fold_right Qplus _ (map (pct _ _) COLOR_RANGES)) in *.
    set (exact := Spec.exact_total roi) in *. lra. }
  rewrite <- Zlt_Qlt in HKlt.
  assert (HKle : (inject_Z K <= inject_Z 1005)%Q) by (rewrite <- Zle_Qle; lia).
  change (inject_Z 1005) with 1005%Q in HKle.
  unfold Qdiv. change (/ 10)%Q with (1 # 10)%Q. lra.
Qed.

(** C1, as amended.  In a region none of whose pixels is a saturated, bright
    pixel with a hue shared by two buckets (10, 25, 35, 85, 100, 130, 160),
    every pixel counts toward at most one bucket, the unrounded percentages
    of the catalogue add up to at most 100, and the values kept in the
    breakdown, each rounded to one decimal, add up to at most 100.5. *)
Theorem breakdown_total_off_boundaries (roi : image) :
  Spec.off_boundaries roi ->
  (forall i j, (i < shape0 roi)%nat -> (j < shape1 roi)%nat ->
     (length (Spec.buckets_of (at_ roi i j)) <= 1)%nat)
  /\ (Spec.exact_total roi <= 100)%Q
  /\ exists breakdown,
       detect_colors roi = Ok breakdown
       /\ (Spec.total_percentage breakdown <= 100 + (1 # 2))%Q.
Proof.
  intro Hoff. split; [|split].
  - intros i j Hi Hj. apply single_bucket. now apply Hoff.
  - now apply exact_total_le_100.
  - destruct (Nat.eq_dec (size roi) 0) as [E | E].
    + exists []. split.
      * unfold detect_colors. now rewrite E.
      * unfold Spec.total_percentage. simpl. lra.
    + eexists. split; [now apply detect_colors_eq|].
      fold (breakdown_of roi (shape0 roi * shape1 roi) COLOR_RANGES).
      apply breakdown_total_bound. now apply exact_total_le_100.
Qed.

Lemma six_colors_off_boundaries : Spec.off_boundaries Examples.six_colors.
Proof.
  intros i j Hi Hj [Hin _]. simpl in Hi, Hj.
  do 6 (destruct j as [|j]; [simpl in Hin; intuition discriminate|]).
  simpl in Hj. lia.
Qed.

Lemma breakdown_total_off_boundaries_witness :
  Spec.off_boundaries Examples.six_colors
  /\ (Spec.exact_total Examples.six_colors <= 100)%Q.
Proof.
  split.
  - exact six_colors_off_boundaries.
  - apply (breakdown_total_off_boundaries Examples.six_colors).
    exact six_colors_off_boundaries.
Defined.

(** C1 fails as stated.  A one-pixel region whose pixel has hue 10 (BGR
    0, 85, 255) is counted in full by [red_low] and by [orange]: the
    breakdown adds up to 200.  Six pixels in six different buckets, none on
    a shared hue, give six entries of 16.7, which add up to 100.2. *)
Lemma breakdown_total_exceeds_100 :
  (detect_colors (Examples.uniform 1 1 Examples.red_orange)
     = Ok [("red_low", 100%Q); ("orange", 100%Q)]
   /\ Spec.buckets_of Examples.red_orange = ["red_low"; "orange"]
   /\ ~ (Spec.total_percentage [("red_low", 100%Q); ("orange", 100%Q)] <= 100)%Q)
  /\
  (Spec.off_boundaries Examples.six_colors
   /\ detect_colors Examples.six_colors
      = Ok [("red_low", 167 # 10); ("orange", 167 # 10); ("yellow", 167 # 10);
            ("green", 167 # 10); ("cyan", 167 # 10); ("blue", 167 # 10)]
   /\ ~ (Spec.total_percentage
           [("red_low", 167 # 10); ("orange", 167 # 10); ("yellow", 167 # 10);
            ("green", 167 # 10); ("cyan", 167 # 10); ("blue", 167 # 10)]
         <= 100)%Q).
Proof.
  split.
  - split; [reflexivity | split; [reflexivity|]].
    intro H. vm_compute in H. apply H. reflexivity.
  - split; [exact six_colors_off_boundaries | split; [reflexivity|]].
    intro H. vm_compute in H. apply H. reflexivity.
Qed.

End BreakdownBound.

(* ================================================================== *)
(** ** Dominant colour selector                                        *)
(* ================================================================== *)

Section DominantColors.

Import color_analyzer.

Lemma distinct_fresh (seen names : list string) (n : string) :
  In n (Spec.distinct seen names) -> ~ In n seen.
Proof.
  revert seen. induction names as [|m names IH]; intro seen; simpl.
  - tauto.
  - destruct (in_dec string_dec m seen) as [Hm | Hm].
    + apply IH.
    + intros [<- | Hin]; [assumption|].
      intro Hs. apply (IH _ Hin). now right.
Qed.

Lemma distinct_NoDup (seen names : list string) :
  NoDup (Spec.distinct seen names).
Proof.
  revert seen. induction names as [|m names IH]; intro seen; simpl.
  - constructor.
  - destruct (in_dec string_dec m seen) as [Hm | Hm]; [apply IH|].
    constructor; [|apply IH].
    intro Hin. apply (distinct_fresh _ _ _ Hin). now left.
Qed.

Lemma firstn_In {A : Type} (n : nat) (l : list A) (a : A) :
  In a (firstn n l) -> In a l.
Proof.
  intro H. rewrite <- (firstn_skipn n l). apply in_or_app. now left.
Qed.

Lemma firstn_NoDup {A : Type} (n : nat) (l : list A) :
  NoDup l -> NoDup (firstn n l).
Proof.
  revert l. induction n as [|n IH]; intros l Hl; simpl.
  - constructor.
  - destruct l as [|a l]; [constructor|].
    inversion Hl as [|? ? Hnotin Hl']; subst. constructor; [|now apply IH].
    intro Hin. apply Hnotin. eapply firstn_In; eassumption.
Qed.

(** From [top_n = 1] on, the loop keeps the first [top_n] distinct display
    names of the sorted breakdown. *)
Lemma dominant_loop_distinct (sorted_colors : dict Q) (top_n : Z) :
  forall seen dominant : list string,
    Z.of_nat (length dominant) < top_n ->
    dominant_loop sorted_colors top_n seen dominant
    = dominant ++
      firstn (Z.to_nat top_n - length dominant)
             (Spec.distinct seen (map display_name (keys sorted_colors))).
Proof.
  induction sorted_colors as [|[color_name pct] rest IH]; intros seen dominant Hlen.
  - simpl. now rewrite firstn_nil, app_nil_r.
  - cbn [dominant_loop keys map fst Spec.distinct].
    rewrite str_in_dec_agree.
    destruct (in_dec string_dec (display_name color_name) seen) as [Hs | Hs].
    + replace (Z.of_nat (length dominant) >=? top_n) with false
        by (symmetry; rewrite Z.geb_leb; apply Z.leb_gt; lia).
      now apply IH.
    + rewrite length_app. cbn [length].
      destruct (Z.of_nat (length dominant + 1) >=? top_n) eqn:E.
      * rewrite Z.geb_leb in E. apply Z.leb_le in E.
        replace (Z.to_nat top_n - length dominant)%nat with 1%nat by lia.
        reflexivity.
      * rewrite Z.geb_leb in E. apply Z.leb_gt in E.
        rewrite IH by (rewrite length_app; simpl; lia).
        rewrite length_app. cbn [length].
        replace (Z.to_nat top_n - length dominant)%nat
          with (S (Z.to_nat top_n - (length dominant + 1)))%nat by lia.
        cbn [firstn]. now rewrite <- app_assoc.
Qed.

(** For [top_n >= 1] the selector returns at most [top_n] names, all
    different: the first [top_n] distinct display names in descending order
    of percentage. *)
Lemma get_dominant_colors_from_one (roi : image) (top_n : Z) :
  1 <= top_n ->
  exists breakdown dominant,
    detect_colors roi = Ok breakdown
    /\ get_dominant_colors roi top_n = Ok dominant
    /\ dominant
       = firstn (Z.to_nat top_n)
           (Spec.distinct [] (map display_name (keys (sorted_desc snd breakdown))))
    /\ Z.of_nat (length dominant) <= top_n
    /\ NoDup dominant.
Proof.
  intro Hn. destruct (detect_colors_total roi) as [breakdown Hb].
  exists breakdown. eexists. split; [exact Hb|].
  unfold get_dominant_colors. rewrite Hb. cbn [bind].
  rewrite dominant_loop_distinct by (simpl; lia).
  cbn [app length]. rewrite Nat.sub_0_r.
  split; [reflexivity|]. split; [reflexivity|]. split.
  - pose proof (firstn_le_length (Z.to_nat top_n)
      (Spec.distinct [] (map display_name (keys (sorted_desc snd breakdown))))).
    lia.
  - apply firstn_NoDup, distinct_NoDup.
Qed.

(** C5 fails on the code at [top_n = 0].  The loop tests the length after it
    has appended, so a one-pixel pure red region (BGR 0, 0, 255) yields one
    name although none was asked for. *)
Theorem get_dominant_colors_top_0 :
  get_dominant_colors (Examples.uniform 1 1 Examples.red) 0 = Ok ["red"]
  /\ ~ (Z.of_nat (length ["red"]) <= 0).
Proof.
  split; [reflexivity | simpl; lia].
Qed.

End DominantColors.

(* ================================================================== *)
(** ** Unknown profiles                                                *)
(* ================================================================== *)

Section UnknownProfile.

Import color_analyzer main.

Lemma value_is_profile_name (t : ColorBlindnessType) :
  In (value t) Spec.profile_names.
Proof.
  destruct t; simpl; tauto.
Qed.

Lemma parse_unknown (s : string) :
  ~ In (lower s) Spec.profile_names -> parse_cb_type s = Ok NORMAL.
Proof.
  intro H. unfold parse_cb_type, of_value.
  destruct (find (fun t => String.eqb (value t) (lower s)) members) as [t|] eqn:F.
  - apply find_some in F. destruct F as [_ E]. apply String.eqb_eq in E.
    exfalso. apply H. rewrite <- E. apply value_is_profile_name.
  - reflexivity.
Qed.

(** C9.  A request whose profile string is, ignoring case, none of the eight
    profile names is processed under the normal profile: parsing raises
    nothing, and the reply is the one the string "normal" gets. *)
Theorem unknown_profile_is_normal
  (NMSBoxes : list detector.box -> list Q -> Q -> Q
              -> list detector.nms_index)
  (decode_base64_image : string -> result image)
  (det : option detector.ObjectDetector) (request : DetectionRequest)
  (s : string) :
  ~ In (lower s) Spec.profile_names ->
  parse_cb_type s = Ok NORMAL
  /\ detect_objects NMSBoxes decode_base64_image det (Spec.with_profile request s)
     = detect_objects NMSBoxes decode_base64_image det
         (Spec.with_profile request "normal").
Proof.
  intro H. split; [now apply parse_unknown|].
  unfold detect_objects. destruct det as [d|]; [|reflexivity].
  unfold process, Spec.with_profile.
  cbn [image_b64 colorblindness_type min_confidence].
  rewrite (parse_unknown s H).
  change (parse_cb_type "normal") with (Ok NORMAL).
  reflexivity.
Qed.

Lemma unknown_profile_is_normal_witness :
  ~ In (lower "Purple-Blind") Spec.profile_names
  /\ detect_objects Examples.keep_all Examples.decode_red (Some Examples.loaded)
       (Spec.with_profile (Examples.request "protanopia") "Purple-Blind")
     = detect_objects Examples.keep_all Examples.decode_red (Some Examples.loaded)
         (Spec.with_profile (Examples.request "protanopia") "normal").
Proof.
  assert (H : ~ In (lower "Purple-Blind") Spec.profile_names)
    by (simpl; intuition discriminate).
  split.
  - exact H.
  - apply (unknown_profile_is_normal Examples.keep_all Examples.decode_red
             (Some Examples.loaded) (Examples.request "protanopia")
             "Purple-Blind" H).
Defined.

End UnknownProfile.

(* ================================================================== *)
(** ** Detection postprocessor                                         *)
(* ================================================================== *)

Section Postprocessor.

Import detector Closed.

(** The value [argmax] points at is the maximum the specification folds. *)
Lemma argmax_from_value (l pre : list Q) (best : nat) (m : Q) :
  nth_error pre best = Some m ->
  nth_error (pre ++ l) (argmax_from l (length pre) best m)
  = Some (fold_left (fun m q => if Qlt_le_dec m q then q else m) l m).
Proof.
  revert pre best m. induction l as [|x l IH]; intros pre best m Hbest.
  - cbn [argmax_from fold_left]. rewrite app_nil_r. exact Hbest.
  - cbn [argmax_from fold_left]. rewrite Qgtb_dec_agree.
    replace (pre ++ x :: l) with ((pre ++ [x]) ++ l)
      by (now rewrite <- app_assoc).
    replace (S (length pre)) with (length (pre ++ [x]))
      by (rewrite length_app; simpl; lia).
    destruct (Qlt_le_dec m x).
    + apply IH. rewrite nth_error_app2 by lia.
      now rewrite Nat.sub_diag.
    + apply IH. rewrite nth_error_app1; [exact Hbest|].
      apply nth_error_Some. congruence.
Qed.

Lemma argmax_max_score (row : anchor) :
  (5 < length row)%nat ->
  exists class_id,
    argmax (skipn 5 row) = Ok class_id
    /\ index (skipn 5 row) class_id = Ok (Spec.max_score row).
Proof.
  intro Hlen. unfold Spec.max_score.
  destruct (skipn 5 row) as [|s scores] eqn:Hs.
  - exfalso. apply (f_equal (@length Q)) in Hs.
    rewrite length_skipn in Hs. simpl in Hs. lia.
  - eexists. split; [reflexivity|]. unfold index.
    change (s :: scores) with ([s] ++ scores).
    change 1%nat with (length [s]).
    now rewrite (argmax_from_value scores [s] 0 s eq_refl).
Qed.

(** A row that does not pass leaves the candidates as they are. *)
Lemma anchor_step_low (width height : Z) (thr : Q) (acc : candidates) (row : anchor) :
  (5 < length row)%nat -> Spec.passes thr row = false ->
  anchor_step width height thr acc row = Ok acc.
Proof.
  intros Hlen Hlow. unfold anchor_step. destruct acc as [[boxes confs] ids].
  destruct (argmax_max_score row Hlen) as [class_id [Ha Hi]].
  rewrite Ha. cbn [bind]. rewrite Hi. cbn [bind].
  unfold Spec.passes in Hlow. rewrite Qgtb_dec_agree.
  now destruct (Qlt_le_dec thr (Spec.max_score row)).
Qed.

Lemma output_loop_filter (width height : Z) (thr : Q) (output : list anchor) :
  Forall (fun row : anchor => (5 < length row)%nat) output ->
  forall acc : candidates,
    for_each output (anchor_step width height thr) acc
    = for_each (filter (Spec.passes thr) output) (anchor_step width height thr) acc.
Proof.
  induction 1 as [|row output Hrow Hall IH]; intro acc; [reflexivity|].
  cbn [for_each filter].
  destruct (Spec.passes thr row) eqn:Hp.
  - cbn [for_each]. destruct (anchor_step width height thr acc row);
      cbn [bind]; [apply IH | reflexivity].
  - rewrite (anchor_step_low width height thr acc row Hrow Hp). cbn [bind].
    apply IH.
Qed.

Lemma collect_filter (width height : Z) (thr : Q) (outputs : list (list anchor)) :
  Spec.well_formed outputs ->
  collect width height thr outputs
  = collect width height thr (map (filter (Spec.passes thr)) outputs).
Proof.
  unfold collect. generalize (@nil box, @nil Q, @nil nat).
  intros acc Hwf. revert acc.
  induction Hwf as [|output outputs Hout Hwf IH]; intro acc; [reflexivity|].
  cbn [for_each map]. rewrite <- (output_loop_filter width height thr output Hout).
  destruct (for_each output (anchor_step width height thr) acc);
    cbn [bind]; [apply IH | reflexivity].
Qed.

Lemma anchor_step_above (width height : Z) (thr : Q) (acc acc' : candidates)
  (row : anchor) :
  above thr acc -> anchor_step width height thr acc row = Ok acc' ->
  above thr acc'.
Proof.
  unfold anchor_step, above. destruct acc as [[boxes confs] ids].
  cbn [fst snd]. intros Hacc.
  destruct (argmax (skipn 5 row)) as [class_id|]; [|discriminate]. cbn [bind].
  destruct (index (skipn 5 row) class_id) as [c|]; [|discriminate]. cbn [bind].
  destruct (Qgtb c thr) eqn:Hc.
  - destruct (index row 0); [|discriminate]. cbn [bind].
    destruct (index row 1); [|discriminate]. cbn [bind].
    destruct (index row 2); [|discriminate]. cbn [bind].
    destruct (index row 3); [|discriminate]. cbn [bind].
    intro H. injection H as <-. cbn [fst snd].
    apply Forall_app. split; [assumption|].
    constructor; [now apply Qgtb_lt | constructor].
  - intro H. injection H as <-. assumption.
Qed.

Lemma output_loop_above (width height : Z) (thr : Q) (output : list anchor) :
  forall acc acc' : candidates,
    above thr acc ->
    for_each output (anchor_step width height thr) acc = Ok acc' ->
    above thr acc'.
Proof.
  induction output as [|row output IH]; intros acc acc' Hacc; cbn [for_each].
  - intro H. injection H as <-. assumption.
  - destruct (anchor_step width height thr acc row) as [acc1|] eqn:Hstep;
      [|discriminate].
    cbn [bind]. apply IH. eapply anchor_step_above; eassumption.
Qed.

Lemma collect_above (width height : Z) (thr : Q) (outputs : list (list anchor))
  (cands : candidates) :
  collect width height thr outputs = Ok cands -> above thr cands.
Proof.
  unfold collect.
  assert (H0 : above thr (@nil box, @nil Q, @nil nat)) by constructor.
  revert H0. generalize (@nil box, @nil Q, @nil nat). revert cands.
  induction outputs as [|output outputs IH]; intros cands acc Hacc; cbn [for_each].
  - intro H. injection H as <-. assumption.
  - destruct (for_each output (anchor_step width height thr) acc) as [acc1|] eqn:Hout;
      [|discriminate].
    cbn [bind]. apply IH. eapply output_loop_above; eassumption.
Qed.

Lemma keep_step_above (self : ObjectDetector) (width height : Z) (thr : Q)
  (cands : candidates) (dets dets' : list detection) (i : nms_index) :
  above thr cands ->
  Forall (fun d => (thr < confidence d)%Q) dets ->
  keep_step self width height cands dets i = Ok dets' ->
  Forall (fun d => (thr < confidence d)%Q) dets'.
Proof.
  unfold keep_step, above. destruct cands as [[boxes confs] ids]. cbn [fst snd].
  intros Hc Hd.
  destruct (index_of i) as [idx|]; [|discriminate]. cbn [bind].
  destruct (index ids idx) as [class_id|]; [|discriminate]. cbn [bind].
  destruct (index (classes self) class_id) as [lbl|]; [|discriminate]. cbn [bind].
  destruct (index boxes idx) as [[[[bx by_] bw] bh]|]; [|discriminate]. cbn [bind].
  unfold index at 1.
  destruct (nth_error confs idx) as [c|] eqn:Hn; [|discriminate]. cbn [bind].
  intro H. injection H as <-.
  apply Forall_app. split; [assumption|]. constructor; [|constructor].
  cbn [confidence]. apply nth_error_In in Hn.
  rewrite Forall_forall in Hc. now apply Hc.
Qed.

Lemma keep_loop_above (self : ObjectDetector) (width height : Z) (thr : Q)
  (cands : candidates) (indices : list nms_index) :
  above thr cands ->
  forall dets dets' : list detection,
    Forall (fun d => (thr < confidence d)%Q) dets ->
    for_each indices (keep_step self width height cands) dets = Ok dets' ->
    Forall (fun d => (thr < confidence d)%Q) dets'.
Proof.
  intro Hc. induction indices as [|idx indices IH]; intros dets dets' Hd;
    cbn [for_each].
  - intro H. injection H as <-. assumption.
  - destruct (keep_step self width height cands dets idx) as [dets1|] eqn:Hstep;
      [|discriminate].
    cbn [bind]. apply IH. eapply keep_step_above; eassumption.
Qed.

(** C8.  An anchor row whose maximum class score does not exceed the
    confidence threshold contributes nothing: on a network output whose rows
    all carry class scores, [detect] returns what it returns once those rows
    are removed, and every detection it returns has a confidence above the
    threshold. *)
Theorem detect_ignores_low_rows
  (NMSBoxes : list box -> list Q -> Q -> Q -> list nms_index)
  (self : ObjectDetector) (frame : image) (confidence_threshold : Q) :
  (forall forward, net self = Some forward -> Spec.well_formed (forward frame)) ->
  detect NMSBoxes self frame confidence_threshold
  = detect NMSBoxes (Spec.without_low_rows confidence_threshold self) frame
      confidence_threshold
  /\ forall detections,
       detect NMSBoxes self frame confidence_threshold = Ok detections ->
       Forall (fun d => (confidence_threshold < confidence d)%Q) detections.
Proof.
  intro Hwf. unfold detect, Spec.without_low_rows. cbn [net classes].
  destruct (net self) as [forward|] eqn:Hnet.
  - specialize (Hwf forward eq_refl). split.
    + rewrite <- (collect_filter _ _ confidence_threshold (forward frame) Hwf).
      destruct (collect _ _ confidence_threshold (forward frame))
        as [[[boxes confs] ids]|]; [|reflexivity].
      cbn [bind]. reflexivity.
    + intros detections.
      destruct (collect _ _ confidence_threshold (forward frame))
        as [cands|] eqn:Hcol; [|discriminate].
      apply collect_above in Hcol. cbn [bind].
      destruct cands as [[boxes confs] ids].
      destruct (for_each _ _ []) as [dets|] eqn:Hkeep; [|discriminate].
      cbn [bind]. intro H. injection H as <-.
      apply sorted_asc_Forall.
      eapply keep_loop_above; [exact Hcol | constructor | exact Hkeep].
  - split; [reflexivity|]. intros detections H. injection H as <-. constructor.
Qed.

Lemma three_anchors_well_formed (frame : image) :
  Spec.well_formed (Examples.three_anchors frame).
Proof.
  repeat constructor; simpl; lia.
Qed.

Lemma detect_ignores_low_rows_witness :
  detect Examples.keep_all Examples.loaded
    (Examples.uniform 8 8 Examples.red) (1 # 2)
  = detect Examples.keep_all (Spec.without_low_rows (1 # 2) Examples.loaded)
      (Examples.uniform 8 8 Examples.red) (1 # 2)
  /\ map label
       match detect Examples.keep_all Examples.loaded
               (Examples.uniform 8 8 Examples.red) (1 # 2) with
       | Ok detections => detections
       | Raise _ => []
       end
     = ["traffic light"; "stop sign"].
Proof.
  split.
  - apply (detect_ignores_low_rows Examples.keep_all Examples.loaded
             (Examples.uniform 8 8 Examples.red) (1 # 2)).
    intros forward H. injection H as <-. apply three_anchors_well_formed.
  - vm_compute. reflexivity.
Defined.

End Postprocessor.

(* ================================================================== *)
(** ** Alert synthesizer                                               *)
(* ================================================================== *)

Section AlertSynthesizer.

Import color_analyzer main.

(** [analyze_region] never raises, and warns exactly when it flags. *)
Lemma analyze_region_total (roi : image) (t : ColorBlindnessType) :
  exists info,
    analyze_region roi t = Ok info
    /\ (is_problematic info = true -> exists w, warning info = Some w)
    /\ (is_problematic info = false -> warning info = None).
Proof.
  unfold analyze_region.
  destruct (size roi =? 0)%nat.
  - eexists. split; [reflexivity|]. simpl. split; [discriminate | reflexivity].
  - destruct (detect_colors_total roi) as [breakdown Hb].
    unfold get_dominant_colors. rewrite Hb. cbn [bind].
    pose proof (warning_iff_problematic breakdown t) as Hw.
    destruct (is_problematic_for_user breakdown t) as [b w]. cbn [fst snd] in Hw.
    eexists. split; [reflexivity|]. cbn [is_problematic warning]. split.
    + intros ->. destruct w as [w|]; [now exists w|].
      destruct Hw as [Hw _]. specialize (Hw eq_refl). discriminate.
    + intro Hb'. now apply Hw.
Qed.

Lemma alert_list_app (objs1 objs2 : list DetectedObject) :
  Spec.alert_list (objs1 ++ objs2)
  = Spec.alert_list objs1 ++ Spec.alert_list objs2.
Proof.
  unfold Spec.alert_list. now rewrite filter_app, map_app.
Qed.

(** One turn of the loop adds one object and, when the object qualifies,
    its entry. *)
Lemma object_step_ok (frame : image) (cb_type : ColorBlindnessType)
  (st : loop_state) (det : detector.detection) :
  exists o,
    object_step frame cb_type st det
    = Ok (fst st ++ [o], snd st ++ Spec.alert_list [o])
    /\ label o = detector.label det
    /\ priority o = determine_priority (label o) (is_problematic_color o)
    /\ (is_problematic_color o = true -> exists w, color_warning o = Some w)
    /\ (is_problematic_color o = false -> color_warning o = None).
Proof.
  destruct st as [objs alerts]. unfold object_step.
  exists (Closed.object_of det
            (match analyze_region
                     (let '(x, y, w, h) := detector.bbox det in
                      crop frame y (y + h) x (x + w)) cb_type with
             | Ok info => info
             | Raise _ => ColorInfo [] false None None
             end)).
  unfold Closed.object_of.
  destruct (detector.bbox det) as [[[bx by_] bw] bh].
  destruct (analyze_region_total (crop frame by_ (by_ + bh) bx (bx + bw)) cb_type)
    as [info [Hinfo [Hsome Hnone]]].
  rewrite Hinfo. cbn [bind fst snd].
  split; [|cbn [label priority is_problematic_color color_warning];
           repeat split; assumption].
  unfold Spec.alert_list, Spec.qualifies, Spec.alert_entry.
  cbn [filter map label priority is_problematic_color color_warning].
  unfold str_in. cbn [existsb]. rewrite orb_false_r.
  destruct (is_problematic info) eqn:Hp; cbn [andb].
  - destruct (Hsome eq_refl) as [w Hw].
    unfold get_warning, format_value. rewrite Hw.
    destruct (_ || _); cbn [map]; [reflexivity | now rewrite app_nil_r].
  - cbn [map]. now rewrite app_nil_r.
Qed.

(** The whole loop: objects in detection order, and the alert list the
    specification describes. *)
Lemma object_loop (frame : image) (cb_type : ColorBlindnessType)
  (detections : list detector.detection) :
  forall st : loop_state,
  exists objs,
    for_each detections (object_step frame cb_type) st
    = Ok (fst st ++ objs, snd st ++ Spec.alert_list objs)
    /\ map label objs = map detector.label detections
    /\ Forall (fun o =>
                 priority o = determine_priority (label o) (is_problematic_color o)
                 /\ (is_problematic_color o = true ->
                     exists w, color_warning o = Some w)
                 /\ (is_problematic_color o = false -> color_warning o = None))
              objs.
Proof.
  induction detections as [|det detections IH]; intro st.
  - exists []. cbn [for_each]. rewrite !app_nil_r. destruct st. repeat split.
    constructor.
  - destruct (object_step_ok frame cb_type st det)
      as [o [Hstep [Hlabel [Hprio [Hsome Hnone]]]]].
    cbn [for_each]. rewrite Hstep. cbn [bind].
    destruct (IH (fst st ++ [o], snd st ++ Spec.alert_list [o]))
      as [objs [Hloop [Hlabels Hall]]].
    exists (o :: objs). rewrite Hloop. cbn [fst snd]. split; [|split].
    + rewrite <- !app_assoc.
      change (o :: objs) with ([o] ++ objs). now rewrite alert_list_app.
    + cbn [map]. now rewrite Hlabel, Hlabels.
    + constructor; [tauto | assumption].
Qed.

Lemma make_alert_message_spec (objs : list DetectedObject) :
  make_alert_message (Spec.alert_list objs) = Spec.alert_message objs.
Proof.
  unfold make_alert_message, Spec.alert_message.
  now destruct (Spec.alert_list objs).
Qed.

(** Five alerts are cut to the first three. *)
Example five_alerts :
  make_alert_message ["a: w"; "b: w"; "c: w"; "d: w"; "e: w"]
  = Some "a: w; b: w; c: w".
Proof. reflexivity. Qed.

(** What a response holds once the endpoint has answered. *)
Lemma response_shape
  (NMSBoxes : list detector.box -> list Q -> Q -> Q
              -> list detector.nms_index)
  (decode_base64_image : string -> result image)
  (det : option detector.ObjectDetector) (request : DetectionRequest)
  (r : DetectionResponse) :
  detect_objects NMSBoxes decode_base64_image det request = Response r ->
  alert_message r = Spec.alert_message (objects r)
  /\ Forall (fun o =>
               priority o = determine_priority (label o) (is_problematic_color o)
               /\ (is_problematic_color o = true ->
                   exists w, color_warning o = Some w)
               /\ (is_problematic_color o = false -> color_warning o = None))
            (objects r).
Proof.
  unfold detect_objects. destruct det as [d|]; [|discriminate].
  destruct (process NMSBoxes decode_base64_image d request) as [r'|e] eqn:Hp;
    [|discriminate].
  intro H. injection H as ->.
  unfold process in Hp.
  destruct (decode_base64_image (image_b64 request)) as [frame|]; [|discriminate].
  cbn [bind] in Hp.
  destruct (parse_cb_type (colorblindness_type request)) as [cb_type|];
    [|discriminate].
  cbn [bind] in Hp.
  destruct (detector.detect NMSBoxes d frame (min_confidence request))
    as [detections|]; [|discriminate].
  cbn [bind] in Hp.
  destruct (object_loop frame cb_type detections ([], []))
    as [objs [Hloop [_ Hall]]].
  rewrite Hloop in Hp. cbn [bind fst snd app] in Hp.
  injection Hp as <-. cbn [alert_message objects].
  split; [apply make_alert_message_spec | exact Hall].
Qed.

(** C4.  In every response the alert message is built from the list that
    holds, in object order, one entry "<label>: <warning>" (the default text
    standing in for a null warning) for each object whose colours are
    problematic and whose final priority is critical or high: null when the
    list is empty, otherwise its first three entries at most, joined by
    "; ". *)
Theorem alert_message_correct
  (NMSBoxes : list detector.box -> list Q -> Q -> Q
              -> list detector.nms_index)
  (decode_base64_image : string -> result image)
  (det : option detector.ObjectDetector) (request : DetectionRequest)
  (r : DetectionResponse) :
  detect_objects NMSBoxes decode_base64_image det request = Response r ->
  exists critical_alerts,
    critical_alerts
    = map (fun o =>
             String.append (label o)
               (String.append ": "
                  match color_warning o with
                  | Some w => w
                  | None => "color may be hard to see"
                  end))
          (filter (fun o =>
                     is_problematic_color o &&
                     (String.eqb (priority o) "critical"
                      || String.eqb (priority o) "high"))
                  (objects r))
    /\ alert_message r
       = match critical_alerts with
         | [] => None
         | _ :: _ => Some (join "; " (firstn 3 critical_alerts))
         end.
Proof.
  intro H. apply response_shape in H. destruct H as [H _].
  eexists. split; [reflexivity|]. rewrite H.
  unfold Spec.alert_message, Spec.alert_list.
  change Spec.alert_entry with
    (fun o => String.append (label o)
                (String.append ": "
                   match color_warning o with
                   | Some w => w
                   | None => "color may be hard to see"
                   end)).
  change Spec.qualifies with
    (fun o => is_problematic_color o &&
              (String.eqb (priority o) "critical"
               || String.eqb (priority o) "high")).
  destruct (map _ _); reflexivity.
Qed.

Lemma alert_message_correct_witness :
  detect_objects Examples.keep_all Examples.decode_red (Some Examples.loaded)
    (Examples.request "protanopia")
  = Response Examples.red_response
  /\ alert_message Examples.red_response
     = Some (String.append
               "traffic light: Contains red - may be difficult to see; "
               "stop sign: Contains red - may be difficult to see").
Proof.
  split.
  - vm_compute. reflexivity.
  - destruct (alert_message_correct Examples.keep_all Examples.decode_red
                (Some Examples.loaded) (Examples.request "protanopia")
                Examples.red_response)
      as [critical_alerts [Hlist Hmsg]].
    + vm_compute. reflexivity.
    + rewrite Hmsg, Hlist. reflexivity.
Defined.

(** C10.  [is_problematic_for_user] gives a warning exactly when its verdict
    is true; so every object put on the alert list carries a warning, and its
    entry is "<label>: <that warning>", never the default text. *)
Theorem warning_iff_flagged :
  (forall (detected_colors : dict Q) (t : ColorBlindnessType),
      (snd (is_problematic_for_user detected_colors t) = None
       <-> fst (is_problematic_for_user detected_colors t) = false)
      /\ (snd (is_problematic_for_user detected_colors t) <> None
          <-> fst (is_problematic_for_user detected_colors t) = true))
  /\ (forall (frame : image) (cb_type : ColorBlindnessType)
        (detections : list detector.detection),
      exists objs critical_alerts,
        for_each detections (object_step frame cb_type) ([], [])
        = Ok (objs, critical_alerts)
        /\ Forall2 (fun o entry =>
                      exists w,
                        color_warning o = Some w
                        /\ entry = String.append (label o) (String.append ": " w))
                   (filter Spec.qualifies objs) critical_alerts).
Proof.
  split.
  - intros detected_colors t.
    pose proof (warning_iff_problematic detected_colors t) as H.
    split; [exact H|].
    destruct (is_problematic_for_user detected_colors t) as [b w].
    cbn [fst snd] in *. destruct b, w; intuition congruence.
  - intros frame cb_type detections.
    destruct (object_loop frame cb_type detections ([], []))
      as [objs [Hloop [_ Hall]]].
    exists objs, (Spec.alert_list objs). cbn [fst snd app] in Hloop.
    split; [exact Hloop|]. clear Hloop.
    unfold Spec.alert_list.
    induction Hall as [|o objs [_ [Hsome _]] Hall IH]; cbn [filter map].
    + constructor.
    + destruct (Spec.qualifies o) eqn:Hq; [|exact IH].
      cbn [map]. constructor; [|exact IH].
      unfold Spec.qualifies in Hq. apply andb_true_iff in Hq.
      destruct Hq as [Hp _]. destruct (Hsome Hp) as [w Hw].
      exists w. split; [exact Hw|]. unfold Spec.alert_entry. now rewrite Hw.
Qed.

End AlertSynthesizer.

(* ================================================================== *)
(** ** More on the palette classifier                                  *)
(* ================================================================== *)

Section BreakdownShape.

Import color_analyzer Closed.

(** A percentage above 5 and not above 100 by more than a hundredth is kept
    as a whole number of tenths between 5.0 and 100.0. *)
Lemma round1_tenths (q : Q) :
  (5 < q)%Q -> (q <= 100 + (1 # 100))%Q ->
  exists z : Z, (round1 q == z # 10)%Q /\ 50 <= z <= 1000.
Proof.
  intros Hlo Hhi. exists (round_half_even (q * 10)). split.
  - unfold round1. apply Qred_correct.
  - pose proof (round_half_even_lower (q * 10)) as Hl.
    pose proof (round_half_even_upper (q * 10)) as Hu.
    set (z := round_half_even (q * 10)) in *.
    assert (H1 : (inject_Z 49 < inject_Z z)%Q) by (change (inject_Z 49) with 49%Q; lra).
    assert (H2 : (inject_Z z < inject_Z 1001)%Q) by (change (inject_Z 1001) with 1001%Q; lra).
    rewrite <- Zlt_Qlt in H1, H2. lia.
Qed.

Lemma percentage_le_100 (roi : image) (lower upper : hsv) :
  (Spec.percentage roi lower upper <= 100)%Q.
Proof.
  unfold Spec.percentage, Spec.matching_pixels, Spec.total_pixels.
  pose proof (filter_length_le (in_range lower upper) (entries roi)) as Hle.
  set (m := length (filter _ _)) in *. set (t := length (entries roi)) in *.
  destruct t as [|t'].
  - replace m with 0%nat by lia. vm_compute. discriminate.
  - assert (Ht : (0 < inject_Z (Z.of_nat (S t')))%Q).
    { change 0%Q with (inject_Z 0). rewrite <- Zlt_Qlt. lia. }
    assert (Hm : (inject_Z (Z.of_nat m) <= inject_Z (Z.of_nat (S t')))%Q).
    { rewrite <- Zle_Qle. lia. }
    assert (Hd : (inject_Z (Z.of_nat m) / inject_Z (Z.of_nat (S t')) <= 1)%Q).
    { apply Qle_shift_div_r; [assumption | lra]. }
    lra.
Qed.

(** The keys of a filtered dict, read off the keys of the dict. *)
Lemma keys_filter_order {V : Type} (keep : string * V -> bool) (d : dict V) :
  NoDup (keys d) ->
  keys (filter keep d)
  = filter (fun k => str_in k (keys (filter keep d))) (keys d).
Proof.
  induction d as [|[k v] d IH]; intro Hnd; [reflexivity|].
  inversion Hnd as [|? ? Hnotin Hnd']; subst.
  assert (Hrest : forall extra,
             filter (fun k' => str_in k' (extra ++ keys (filter keep d))) (keys d)
             = filter (fun k' => str_in k' (keys (filter keep d))) (keys d)
             \/ exists k', In k' extra /\ In k' (keys d)).
  { intro extra.
    destruct (existsb (fun k' => str_in k' (keys d)) extra) eqn:E.
    - right. apply existsb_exists in E. destruct E as [k' [H1 H2]].
      exists k'. split; [assumption | now apply str_in_In].
    - left. apply filter_ext_in. intros k' Hk'.
      destruct (str_in k' (extra ++ keys (filter keep d))) eqn:E1.
      + apply str_in_In in E1. apply in_app_or in E1. destruct E1 as [E1 | E1].
        * exfalso. assert (Hex : existsb (fun k' => str_in k' (keys d)) extra = true).
          { apply existsb_exists. exists k'. split; [assumption|].
            now apply str_in_In. }
          congruence.
        * symmetry. now apply str_in_In.
      + symmetry. destruct (str_in k' (keys (filter keep d))) eqn:E2; [|reflexivity].
        apply str_in_In in E2. rewrite <- E1. symmetry. apply str_in_In.
        apply in_or_app. now right. }
  cbn [filter keys map fst].
  destruct (keep (k, v)) eqn:Hk.
  - cbn [map fst]. fold (keys (filter keep d)). fold (keys d).
    replace (str_in k (k :: keys (filter keep d))) with true
      by (symmetry; apply str_in_In; now left).
    f_equal.
    destruct (Hrest [k]) as [H | [k' [[<- | []] Hin]]]; [|contradiction].
    cbn [app] in H. rewrite H. now apply IH.
  - fold (keys (filter keep d)). fold (keys d).
    replace (str_in k (keys (filter keep d))) with false.
    + now apply IH.
    + symmetry. destruct (str_in k (keys (filter keep d))) eqn:E; [|reflexivity].
      apply str_in_In in E. exfalso. apply Hnotin. unfold keys in *.
      apply in_map_iff in E. destruct E as [b [Eb Hb]].
      apply filter_In in Hb. rewrite <- Eb. apply in_map. tauto.
Qed.

(** X1.  Whatever the region, [detect_colors] returns a breakdown whose
    keys are catalogue buckets, each at most once and in catalogue order,
    and whose values are whole tenths from 5.0 to 100.0. *)
Theorem breakdown_shape (roi : image) :
  exists breakdown,
    detect_colors roi = Ok breakdown
    /\ NoDup (keys breakdown)
    /\ keys breakdown
       = filter (fun k => str_in k (keys breakdown)) (keys COLOR_RANGES)
    /\ forall (k : string) (v : Q),
         In (k, v) breakdown ->
         exists z : Z, (v == z # 10)%Q /\ 50 <= z <= 1000.
Proof.
  destruct (Nat.eq_dec (size roi) 0) as [E | E].
  - exists []. unfold detect_colors. rewrite E. repeat split.
    + constructor.
    + intros k v [].
  - eexists. split; [now apply detect_colors_eq|].
    fold (breakdown_of roi (shape0 roi * shape1 roi) COLOR_RANGES).
    unfold breakdown_of.
    set (keep := fun b => Qgtb (pct roi (shape0 roi * shape1 roi) b) 5).
    assert (Hkeys : forall l : dict (hsv * hsv),
               keys (map (fun b => (fst b, round1 (pct roi (shape0 roi * shape1 roi) b))) l)
               = keys l).
    { intro l. unfold keys. rewrite map_map. reflexivity. }
    rewrite Hkeys. split; [|split].
    + rewrite (keys_filter_order keep COLOR_RANGES COLOR_RANGES_NoDup).
      apply NoDup_filter. exact COLOR_RANGES_NoDup.
    + apply (keys_filter_order keep COLOR_RANGES COLOR_RANGES_NoDup).
    + intros k v Hin. apply in_map_iff in Hin.
      destruct Hin as [[name [lo up]] [Ekv Hin]]. cbn [fst] in Ekv.
      injection Ekv as -> <-. apply filter_In in Hin. destruct Hin as [_ Hgt].
      unfold keep in Hgt. apply Qgtb_lt in Hgt.
      rewrite pct_float in *.
      apply round1_tenths; [exact Hgt|].
      destruct (float_percentage_bounds roi lo up) as [_ Hup].
      pose proof (percentage_le_100 roi lo up) as Hle.
      pose proof (percentage_nonneg roi lo up) as Hge.
      unfold ulp_bound in Hup.
      set (f := Spec.float_percentage roi lo up) in *.
      set (e := Spec.percentage roi lo up) in *. lra.
Qed.

End BreakdownShape.

Section BucketOverlap.

Import color_analyzer.

Ltac leb_facts :=
  repeat match goal with
  | E : (_ && _) = true |- _ => apply andb_true_iff in E; destruct E as [? ?]
  | E : (_ <=? _) = true |- _ => apply Z.leb_le in E
  end.

(** Whatever its value, a pixel lies in the range of at most two buckets. *)
Lemma at_most_two_buckets (p : hsv) : (length (Spec.buckets_of p) <= 2)%nat.
Proof.
  destruct p as [h s v].
  unfold Spec.buckets_of, COLOR_RANGES, keys. cbn [filter fst snd].
  unfold in_range. cbn [hue sat val].
  repeat match goal with
  | |- context [if ?c then _ else _] =>
      let E := fresh "E" in
      destruct c eqn:E; [leb_facts; try (exfalso; lia) | clear E]
  end;
  simpl; lia.
Qed.

Lemma list_sum_bounded_by {A : Type} (g : A -> nat) (n : nat) (l : list A) :
  (forall a, In a l -> (g a <= n)%nat) ->
  (list_sum (map g l) <= n * length l)%nat.
Proof.
  induction l as [|a l IH]; simpl; intro H; [lia|].
  specialize (IH (fun a' Ha' => H a' (or_intror Ha'))).
  specialize (H a (or_introl eq_refl)). lia.
Qed.

(** X2.  No pixel is counted by more than two buckets: over the whole
    catalogue the matching-pixel counts add up to at most twice the number of
    pixels, so the unrounded percentages add up to at most 200. *)
Theorem breakdown_total_le_200 (roi : image) :
  (forall i j, (length (Spec.buckets_of (at_ roi i j)) <= 2)%nat)
  /\ (list_sum (map (fun b => Spec.matching_pixels roi (fst (snd b)) (snd (snd b)))
                    COLOR_RANGES)
      <= 2 * Spec.total_pixels roi)%nat
  /\ (Spec.exact_total roi <= 200)%Q.
Proof.
  assert (Hcount :
    (list_sum (map (fun b => Spec.matching_pixels roi (fst (snd b)) (snd (snd b)))
                   COLOR_RANGES)
     <= 2 * Spec.total_pixels roi)%nat).
  { unfold Spec.matching_pixels, Spec.total_pixels.
    rewrite (count_swap (fun b p => in_range (fst (snd b)) (snd (snd b)) p)).
    apply list_sum_bounded_by. intros p _.
    pose proof (at_most_two_buckets p) as H.
    unfold Spec.buckets_of, keys in H. now rewrite length_map in H. }
  split; [intros i j; apply at_most_two_buckets | split; [exact Hcount|]].
  unfold Spec.exact_total, Spec.percentage.
  rewrite (qsum_scaled
             (fun b => Spec.matching_pixels roi (fst (snd b)) (snd (snd b)))).
  set (s := list_sum _) in *. set (t := Spec.total_pixels roi) in *.
  destruct t as [|t'].
  - replace s with 0%nat by lia. vm_compute. discriminate.
  - assert (Ht : (0 < inject_Z (Z.of_nat (S t')))%Q).
    { change 0%Q with (inject_Z 0). rewrite <- Zlt_Qlt. lia. }
    assert (Hs : (inject_Z (Z.of_nat s) <= 2 * inject_Z (Z.of_nat (S t')))%Q).
    { change 2%Q with (inject_Z 2). rewrite <- inject_Z_mult, <- Zle_Qle. lia. }
    assert (Hd : (inject_Z (Z.of_nat s) / inject_Z (Z.of_nat (S t')) <= 2)%Q).
    { apply Qle_shift_div_r; [assumption | lra]. }
    lra.
Qed.

End BucketOverlap.

(* ================================================================== *)
(** ** More on the impact evaluator                                    *)
(* ================================================================== *)

Section ImpactFacts.

Import color_analyzer Closed.

(** A region is flagged exactly when the breakdown holds a bucket of the
    profile's set above 10 percent. *)
Lemma flagged_iff (detected_colors : dict Q) (t : ColorBlindnessType) :
  fst (is_problematic_for_user detected_colors t) = true
  <-> exists k v, In (k, v) detected_colors
                  /\ In k (problematic_colors t) /\ (10 < v)%Q.
Proof.
  rewrite is_problematic_for_user_impact. unfold Spec.impact.
  rewrite <- flagged_matching.
  destruct (problematic_colors t) as [|p ps] eqn:Hp.
  - split; [discriminate | intros [k [v [_ [[] _]]]]].
  - destruct (filter (flagged (p :: ps)) detected_colors) as [|[k v] rest] eqn:Hf.
    + split; [discriminate|]. intros [k [v [Hin [Hk Hv]]]]. exfalso.
      assert (H : In (k, v) (filter (flagged (p :: ps)) detected_colors)).
      { apply filter_In. split; [assumption|]. unfold flagged. cbn [fst snd].
        apply andb_true_iff. split; [now apply str_in_In | now apply Qgtb_lt]. }
      rewrite Hf in H. contradiction.
    + split; [intros _ | reflexivity].
      assert (H : In (k, v) (filter (flagged (p :: ps)) detected_colors))
        by (rewrite Hf; now left).
      apply filter_In in H. destruct H as [Hin Hfl].
      unfold flagged in Hfl. cbn [fst snd] in Hfl.
      apply andb_true_iff in Hfl. destruct Hfl as [Hk Hv].
      exists k, v. split; [assumption|].
      split; [now apply str_in_In | now apply Qgtb_lt].
Qed.

Lemma flagged_incl (detected_colors : dict Q) (t1 t2 : ColorBlindnessType) :
  incl (problematic_colors t1) (problematic_colors t2) ->
  fst (is_problematic_for_user detected_colors t1) = true ->
  fst (is_problematic_for_user detected_colors t2) = true.
Proof.
  intros Hincl H. apply flagged_iff in H. destruct H as [k [v [Hin [Hk Hv]]]].
  apply flagged_iff. exists k, v. split; [assumption|].
  split; [now apply Hincl | assumption].
Qed.

(** X3.  What is flagged for a weak form of a deficiency is flagged for its
    full form, and what is flagged for any profile is flagged for
    achromatopsia. *)
Theorem flagged_for_stronger_profile (detected_colors : dict Q) :
  (fst (is_problematic_for_user detected_colors PROTANOMALY) = true ->
   fst (is_problematic_for_user detected_colors PROTANOPIA) = true)
  /\ (fst (is_problematic_for_user detected_colors DEUTERANOMALY) = true ->
      fst (is_problematic_for_user detected_colors DEUTERANOPIA) = true)
  /\ (fst (is_problematic_for_user detected_colors TRITANOMALY) = true ->
      fst (is_problematic_for_user detected_colors TRITANOPIA) = true)
  /\ forall t : ColorBlindnessType,
       fst (is_problematic_for_user detected_colors t) = true ->
       fst (is_problematic_for_user detected_colors ACHROMATOPSIA) = true.
Proof.
  split; [|split; [|split]].
  - apply (flagged_incl detected_colors PROTANOMALY PROTANOPIA).
    intros k Hk. simpl in *. tauto.
  - apply (flagged_incl detected_colors DEUTERANOMALY DEUTERANOPIA).
    intros k Hk. simpl in *. tauto.
  - apply (flagged_incl detected_colors TRITANOMALY TRITANOPIA).
    intros k Hk. simpl in *. tauto.
  - intro t. apply (flagged_incl detected_colors t ACHROMATOPSIA).
    intros k Hk. destruct t; simpl in *; tauto.
Qed.

Lemma filter_flagged_above (problematic : list string) (l : dict Q) :
  filter (flagged problematic) (filter (fun item => Qgtb (snd item) 10) l)
  = filter (flagged problematic) l.
Proof.
  induction l as [|[k v] l IH]; [reflexivity|].
  cbn [filter snd]. destruct (Qgtb v 10) eqn:E.
  - cbn [filter]. now rewrite IH.
  - rewrite IH. unfold flagged at 2. cbn [fst snd]. rewrite E.
    now rewrite andb_false_r.
Qed.

(** X4.  Buckets at or below 10 percent play no part: dropping them from
    the breakdown changes neither the verdict nor the warning. *)
Theorem low_buckets_do_not_matter (detected_colors : dict Q)
  (t : ColorBlindnessType) :
  is_problematic_for_user
    (filter (fun item => Qgtb (snd item) 10) detected_colors) t
  = is_problematic_for_user detected_colors t.
Proof.
  rewrite !is_problematic_for_user_impact. unfold Spec.impact.
  rewrite <- !flagged_matching. now rewrite filter_flagged_above.
Qed.

End ImpactFacts.

(* ================================================================== *)
(** ** More on the dominant colour selector                            *)
(* ================================================================== *)

Section DominantFacts.

Import color_analyzer.

(** The loop only ever appends display names of the buckets it is given. *)
Lemma dominant_loop_appends (top_n : Z) (sorted_colors : dict Q) :
  forall seen dominant : list string,
  exists suffix,
    dominant_loop sorted_colors top_n seen dominant = dominant ++ suffix
    /\ forall n, In n suffix ->
         exists k v, In (k, v) sorted_colors /\ n = display_name k.
Proof.
  induction sorted_colors as [|[k v] rest IH]; intros seen dominant.
  - exists []. cbn [dominant_loop]. rewrite app_nil_r. split; [reflexivity|].
    intros n [].
  - cbn [dominant_loop].
    destruct (str_in (display_name k) seen).
    + destruct (Z.of_nat (length dominant) >=? top_n).
      * exists []. rewrite app_nil_r. split; [reflexivity | intros n []].
      * destruct (IH seen dominant) as [suffix [Heq Hfrom]].
        exists suffix. split; [exact Heq|].
        intros n Hn. destruct (Hfrom n Hn) as [k' [v' [Hin ->]]].
        exists k', v'. split; [now right | reflexivity].
    + destruct (Z.of_nat (length (dominant ++ [display_name k])) >=? top_n).
      * exists [display_name k]. split; [reflexivity|].
        intros n [<- | []]. exists k, v. split; [now left | reflexivity].
      * destruct (IH (display_name k :: seen) (dominant ++ [display_name k]))
          as [suffix [Heq Hfrom]].
        exists (display_name k :: suffix). split.
        -- rewrite Heq. now rewrite <- app_assoc.
        -- intros n [<- | Hn].
           ++ exists k, v. split; [now left | reflexivity].
           ++ destruct (Hfrom n Hn) as [k' [v' [Hin ->]]].
              exists k', v'. split; [now right | reflexivity].
Qed.

(** From an empty start the first name is that of the first bucket. *)
Lemma dominant_loop_head (top_n : Z) (k : string) (v : Q) (rest : dict Q) :
  exists tail,
    dominant_loop ((k, v) :: rest) top_n [] [] = display_name k :: tail.
Proof.
  cbn [dominant_loop str_in existsb app].
  destruct (Z.of_nat (length [display_name k]) >=? top_n).
  - now exists [].
  - destruct (dominant_loop_appends top_n rest [display_name k] [display_name k])
      as [suffix [Heq _]].
    exists suffix. exact Heq.
Qed.

Lemma dominant_colors_sources (roi : image) (top_n : Z) :
  exists breakdown dominant,
    detect_colors roi = Ok breakdown
    /\ get_dominant_colors roi top_n = Ok dominant
    /\ (dominant = [] <-> breakdown = [])
    /\ forall n, In n dominant ->
         exists k v, In (k, v) breakdown /\ n = display_name k.
Proof.
  destruct (detect_colors_total roi) as [breakdown Hb].
  exists breakdown. eexists. split; [exact Hb|].
  unfold get_dominant_colors. rewrite Hb. cbn [bind].
  split; [reflexivity|].
  pose proof (sorted_desc_perm snd breakdown) as Hperm.
  split.
  - split.
    + intro Hd. destruct (sorted_desc snd breakdown) as [|[k v] rest] eqn:Hs.
      * apply Permutation_sym, Permutation_nil in Hperm. exact Hperm.
      * destruct (dominant_loop_head top_n k v rest) as [tail Ht].
        rewrite Ht in Hd. discriminate.
    + intros ->. reflexivity.
  - intros n Hn.
    destruct (dominant_loop_appends top_n (sorted_desc snd breakdown) [] [])
      as [suffix [Heq Hfrom]].
    rewrite Heq in Hn. cbn [app] in Hn.
    destruct (Hfrom n Hn) as [k [v [Hin ->]]].
    exists k, v. split; [|reflexivity].
    eapply Permutation_in; [apply Permutation_sym; exact Hperm | exact Hin].
Qed.

(** X5.  For every region and every [top_n], also zero or negative, the
    selector raises nothing, returns no name exactly when the breakdown is
    empty, and returns only display names of buckets of the breakdown. *)
Theorem dominant_colors_from_breakdown (roi : image) (top_n : Z) :
  exists breakdown dominant,
    detect_colors roi = Ok breakdown
    /\ get_dominant_colors roi top_n = Ok dominant
    /\ (dominant = [] <-> breakdown = [])
    /\ forall n, In n dominant ->
         exists k v, In (k, v) breakdown /\ n = display_name k.
Proof.
  exact (dominant_colors_sources roi top_n).
Qed.

(** X6.  The first name the selector returns is the display name of a
    bucket whose percentage no other bucket of the breakdown exceeds. *)
Theorem first_dominant_color_is_largest (roi : image) (top_n : Z) :
  exists breakdown dominant,
    detect_colors roi = Ok breakdown
    /\ get_dominant_colors roi top_n = Ok dominant
    /\ forall n tail, dominant = n :: tail ->
         exists k v,
           In (k, v) breakdown /\ n = display_name k
           /\ forall k' v', In (k', v') breakdown -> (v' <= v)%Q.
Proof.
  destruct (detect_colors_total roi) as [breakdown Hb].
  exists breakdown. eexists. split; [exact Hb|].
  unfold get_dominant_colors. rewrite Hb. cbn [bind].
  split; [reflexivity|].
  pose proof (sorted_desc_perm snd breakdown) as Hperm.
  pose proof (sorted_desc_sorted snd breakdown) as Hsorted.
  intros n tail Hd.
  destruct (sorted_desc snd breakdown) as [|[k v] rest] eqn:Hs;
    [discriminate|].
  destruct (dominant_loop_head top_n k v rest) as [tail' Ht].
  rewrite Ht in Hd. injection Hd as <- _.
  exists k, v. split; [|split; [reflexivity|]].
  - eapply Permutation_in; [apply Permutation_sym; exact Hperm | now left].
  - intros k' v' Hin.
    apply (Permutation_in _ Hperm) in Hin.
    destruct Hin as [E | Hin].
    + injection E as _ <-. apply Qle_refl.
    + inversion Hsorted as [|? ? _ Hall]; subst.
      rewrite Forall_forall in Hall. exact (Hall (k', v') Hin).
Qed.

End DominantFacts.

(* ================================================================== *)
(** ** Region analysis and traffic lights                              *)
(* ================================================================== *)

Section RegionFacts.

Import color_analyzer.

(** What [analyze_region] assembles for a region with pixels. *)
Lemma analyze_region_parts (roi : image) (t : ColorBlindnessType)
  (breakdown : dict Q) :
  size roi <> 0%nat -> detect_colors roi = Ok breakdown ->
  exists info,
    analyze_region roi t = Ok info
    /\ get_dominant_colors roi 3 = Ok (dominant_colors info)
    /\ is_problematic info = fst (is_problematic_for_user breakdown t)
    /\ warning info = snd (is_problematic_for_user breakdown t)
    /\ color_breakdown info = Some breakdown.
Proof.
  intros Hs Hb. unfold analyze_region.
  replace (size roi =? 0)%nat with false by (symmetry; now apply Nat.eqb_neq).
  rewrite Hb. cbn [bind].
  unfold get_dominant_colors. rewrite Hb. cbn [bind].
  destruct (is_problematic_for_user breakdown t) as [b w].
  eexists. split; [reflexivity|]. cbn. repeat split.
Qed.

(** X7.  [analyze_region] raises nothing; it names at most three dominant
    colours, all different; a flagged region has at least one dominant
    colour; and the breakdown is left out of the result exactly for a region
    without pixels. *)
Theorem analyze_region_consistent (roi : image) (t : ColorBlindnessType) :
  exists info,
    analyze_region roi t = Ok info
    /\ (length (dominant_colors info) <= 3)%nat
    /\ NoDup (dominant_colors info)
    /\ (is_problematic info = true -> dominant_colors info <> [])
    /\ (color_breakdown info = None <-> (shape0 roi * shape1 roi = 0)%nat).
Proof.
  destruct (Nat.eq_dec (size roi) 0) as [E | E].
  - exists (ColorInfo [] false None None). unfold analyze_region. rewrite E.
    cbn. split; [reflexivity|]. split; [lia|]. split; [constructor|].
    split; [discriminate|]. split; [intros _; unfold size in E; lia | reflexivity].
  - destruct (detect_colors_total roi) as [breakdown Hb].
    destruct (analyze_region_parts roi t breakdown E Hb)
      as [info [Hinfo [Hdom [Hflag [_ Hbd]]]]].
    exists info. split; [exact Hinfo|].
    destruct (get_dominant_colors_from_one roi 3 ltac:(lia))
      as [bd1 [dom1 [Hb1 [Hd1 [_ [Hlen Hnd]]]]]].
    rewrite Hdom in Hd1. injection Hd1 as <-.
    destruct (dominant_colors_sources roi 3)
      as [bd2 [dom2 [Hb2 [Hd2 [Hempty _]]]]].
    rewrite Hdom in Hd2. injection Hd2 as <-.
    rewrite Hb in Hb2. injection Hb2 as <-.
    split; [lia|]. split; [exact Hnd|]. split.
    + intros Hp Hnil. rewrite Hflag in Hp. apply flagged_iff in Hp.
      destruct Hp as [k [v [Hin _]]].
      apply Hempty in Hnil. subst breakdown. contradiction.
    + rewrite Hbd. split; [discriminate|]. unfold size in E. lia.
Qed.

Lemma py_min_range (p : Q) :
  (10 < p)%Q -> (1 # 10 < py_min (p / 100) 1 <= 1)%Q.
Proof.
  intro Hp. unfold py_min.
  assert (Hd : (p / 100 == p * (1 # 100))%Q) by (unfold Qdiv; reflexivity).
  destruct (Qgtb (p / 100) 1) eqn:E.
  - lra.
  - apply Qgtb_le in E. rewrite Hd in *. lra.
Qed.

(** X8.  [analyze_traffic_light] raises nothing and answers either
    "unknown" with confidence 0, or one of "red", "yellow", "green" with a
    confidence above 0.1 and at most 1; a region without pixels is
    "unknown". *)
Theorem traffic_light_verdict (roi : image) :
  exists tl,
    analyze_traffic_light roi = Ok tl
    /\ ((state tl = "unknown" /\ state_confidence tl = 0%Q)
        \/ (In (state tl) ["red"; "yellow"; "green"]
            /\ (1 # 10 < state_confidence tl <= 1)%Q))
    /\ ((shape0 roi * shape1 roi = 0)%nat -> state tl = "unknown").
Proof.
  unfold analyze_traffic_light.
  destruct (size roi =? 0)%nat eqn:E.
  - eexists. split; [reflexivity|]. cbn. split; [now left | reflexivity].
  - apply Nat.eqb_neq in E.
    destruct (detect_colors_total roi) as [colors Hc]. rewrite Hc. cbn [bind].
    set (red_pct := (dict_get_default colors "red_low" 0
                     + dict_get_default colors "red_high" 0)%Q).
    set (yellow_pct := dict_get_default colors "yellow" 0%Q).
    set (green_pct := dict_get_default colors "green" 0%Q).
    assert (Hsize : (shape0 roi * shape1 roi = 0)%nat -> False)
      by (unfold size in E; lia).
    destruct (Qgtb red_pct yellow_pct && Qgtb red_pct green_pct
              && Qgtb red_pct 10) eqn:Hr.
    { apply andb_true_iff in Hr. destruct Hr as [_ Hr]. apply Qgtb_lt in Hr.
      eexists. split; [reflexivity|]. cbn [state state_confidence].
      split; [right; split; [simpl; tauto | now apply py_min_range] | tauto]. }
    destruct (Qgtb yellow_pct red_pct && Qgtb yellow_pct green_pct
              && Qgtb yellow_pct 10) eqn:Hy.
    { apply andb_true_iff in Hy. destruct Hy as [_ Hy]. apply Qgtb_lt in Hy.
      eexists. split; [reflexivity|]. cbn [state state_confidence].
      split; [right; split; [simpl; tauto | now apply py_min_range] | tauto]. }
    destruct (Qgtb green_pct red_pct && Qgtb green_pct yellow_pct
              && Qgtb green_pct 10) eqn:Hg.
    { apply andb_true_iff in Hg. destruct Hg as [_ Hg]. apply Qgtb_lt in Hg.
      eexists. split; [reflexivity|]. cbn [state state_confidence].
      split; [right; split; [simpl; tauto | now apply py_min_range] | tauto]. }
    eexists. split; [reflexivity|]. cbn [state state_confidence].
    split; [now left | tauto].
Qed.

Lemma dict_get_In_any {V : Type} (d : dict V) (k : string) (v : V) :
  dict_get d k = Some v -> In (k, v) d.
Proof.
  induction d as [|[k' v'] d IH]; simpl; [discriminate|].
  destruct (String.eqb k' k) eqn:E.
  - apply String.eqb_eq in E. intro H. injection H as ->. left. now subst.
  - intro H. right. now apply IH.
Qed.

Lemma present_above_10 (d : dict Q) (k : string) :
  (10 < dict_get_default d k 0)%Q -> exists v, In (k, v) d /\ (10 < v)%Q.
Proof.
  unfold dict_get_default. destruct (dict_get d k) as [v|] eqn:E.
  - intro H. exists v. split; [now apply dict_get_In_any | exact H].
  - intro H. exfalso. revert H. apply Qle_not_lt. discriminate.
Qed.

(** X9.  A traffic light read as green is a region [analyze_region] flags
    for protanopia, deuteranopia, deuteranomaly and achromatopsia; one read
    as yellow is flagged for deuteranopia, deuteranomaly, tritanopia,
    tritanomaly and achromatopsia. *)
Theorem green_and_yellow_lights_are_flagged (roi : image) (tl : traffic_light) :
  analyze_traffic_light roi = Ok tl ->
  (state tl = "green" ->
   forall t, In t [PROTANOPIA; DEUTERANOPIA; DEUTERANOMALY; ACHROMATOPSIA] ->
     exists info, analyze_region roi t = Ok info /\ is_problematic info = true)
  /\ (state tl = "yellow" ->
      forall t, In t [DEUTERANOPIA; DEUTERANOMALY; TRITANOPIA; TRITANOMALY;
                      ACHROMATOPSIA] ->
        exists info, analyze_region roi t = Ok info /\ is_problematic info = true).
Proof.
  unfold analyze_traffic_light.
  destruct (size roi =? 0)%nat eqn:E.
  { intro H. injection H as <-. split; discriminate. }
  apply Nat.eqb_neq in E.
  destruct (detect_colors_total roi) as [colors Hc]. rewrite Hc. cbn [bind].
  assert (Hflag : forall k t,
            (10 < dict_get_default colors k 0)%Q ->
            In k (problematic_colors t) ->
            exists info,
              analyze_region roi t = Ok info /\ is_problematic info = true).
  { intros k t Hk Hin.
    destruct (analyze_region_parts roi t colors E Hc)
      as [info [Hinfo [_ [Hf _]]]].
    exists info. split; [exact Hinfo|]. rewrite Hf. apply flagged_iff.
    destruct (present_above_10 colors k Hk) as [v [Hv1 Hv2]].
    now exists k, v. }
  set (red_pct := (dict_get_default colors "red_low" 0
                   + dict_get_default colors "red_high" 0)%Q).
  set (yellow_pct := dict_get_default colors "yellow" 0%Q) in *.
  set (green_pct := dict_get_default colors "green" 0%Q) in *.
  destruct (Qgtb red_pct yellow_pct && Qgtb red_pct green_pct
            && Qgtb red_pct 10) eqn:Hr.
  { intro H. injection H as <-. split; discriminate. }
  destruct (Qgtb yellow_pct red_pct && Qgtb yellow_pct green_pct
            && Qgtb yellow_pct 10) eqn:Hy.
  { intro H. injection H as <-. split; [discriminate|]. intros _ t Ht.
    apply andb_true_iff in Hy. destruct Hy as [_ Hy]. apply Qgtb_lt in Hy.
    apply (Hflag "yellow" t Hy).
    simpl in Ht. destruct Ht as [<- | [<- | [<- | [<- | [<- | []]]]]];
      simpl; tauto. }
  destruct (Qgtb green_pct red_pct && Qgtb green_pct yellow_pct
            && Qgtb green_pct 10) eqn:Hg.
  { intro H. injection H as <-. split; [|discriminate]. intros _ t Ht.
    apply andb_true_iff in Hg. destruct Hg as [_ Hg]. apply Qgtb_lt in Hg.
    apply (Hflag "green" t Hg).
    simpl in Ht. destruct Ht as [<- | [<- | [<- | [<- | []]]]]; simpl; tauto. }
  intro H. injection H as <-. split; discriminate.
Qed.

Lemma green_and_yellow_lights_are_flagged_witness :
  analyze_traffic_light (Examples.uniform 2 2 (HSV 50 200 200))
  = Ok (TrafficLight "green" (100 # 100))
  /\ exists info,
       analyze_region (Examples.uniform 2 2 (HSV 50 200 200)) DEUTERANOMALY
       = Ok info
       /\ is_problematic info = true.
Proof.
  assert (H : analyze_traffic_light (Examples.uniform 2 2 (HSV 50 200 200))
              = Ok (TrafficLight "green" (100 # 100)))
    by (vm_compute; reflexivity).
  split; [exact H|].
  destruct (green_and_yellow_lights_are_flagged
              (Examples.uniform 2 2 (HSV 50 200 200))
              (TrafficLight "green" (100 # 100)) H) as [Hgreen _].
  apply Hgreen; [reflexivity | simpl; tauto].
Defined.

End RegionFacts.

(* ================================================================== *)
(** ** More on the detection postprocessor                             *)
(* ================================================================== *)

Section PostprocessorFacts.

Import detector.

(** Loops and what they preserve. *)
Lemma for_each_invariant {A S : Type} (body : S -> A -> result S) (I : S -> Prop) :
  (forall s x s', I s -> body s x = Ok s' -> I s') ->
  forall (l : list A) (s s' : S), I s -> for_each l body s = Ok s' -> I s'.
Proof.
  intros Hbody l. induction l as [|x l IH]; intros s s' Hs; cbn [for_each].
  - intro H. injection H as <-. exact Hs.
  - destruct (body s x) as [s1|] eqn:E; [|discriminate]. cbn [bind].
    apply IH. eapply Hbody; eassumption.
Qed.


Lemma insert_asc_perm {A : Type} (key : A -> Q) (x : A) (l : list A) :
  Permutation (x :: l) (insert_asc key x l).
Proof.
  induction l as [|y l IH]; simpl.
  - apply Permutation_refl.
  - destruct (Qgtb (key x) (key y)).
    + eapply perm_trans; [apply perm_swap|]. now apply perm_skip.
    + apply Permutation_refl.
Qed.

Lemma insert_asc_sorted {A : Type} (key : A -> Q) (x : A) (l : list A) :
  StronglySorted (fun a b => (key a <= key b)%Q) l ->
  StronglySorted (fun a b => (key a <= key b)%Q) (insert_asc key x l).
Proof.
  induction 1 as [|y l Hl IH Hy]; simpl.
  - repeat constructor.
  - destruct (Qgtb (key x) (key y)) eqn:E.
    + constructor; [exact IH|].
      apply Qgtb_lt in E.
      rewrite Forall_forall in *. intros z Hz.
      apply (Permutation_in _ (Permutation_sym (insert_asc_perm key x l))) in Hz.
      destruct Hz as [<- | Hz]; [now apply Qlt_le_weak | now apply Hy].
    + apply Qgtb_le in E. constructor; [now constructor|].
      constructor; [exact E|].
      rewrite Forall_forall in *. intros z Hz.
      apply Qle_trans with (key y); [exact E | now apply Hy].
Qed.

Lemma sorted_asc_sorted {A : Type} (key : A -> Q) (l : list A) :
  StronglySorted (fun a b => (key a <= key b)%Q) (sorted_asc key l).
Proof.
  induction l as [|x l IH]; simpl; [constructor | now apply insert_asc_sorted].
Qed.

(** What one turn of the loop over the kept indices appends. *)
Lemma keep_step_adds (self : ObjectDetector) (width height : Z)
  (cands : candidates) (dets dets' : list detection) (i : nms_index) :
  keep_step self width height cands dets i = Ok dets' ->
  exists d,
    dets' = dets ++ [d]
    /\ In (label d) (classes self)
    /\ (let '(x, y, w, h) := bbox d in
        0 <= x /\ 0 <= y /\ x + w <= width /\ y + h <= height)
    /\ (priority d, color_relevant d)
       = match dict_get RELEVANT_OBJECTS (label d) with
         | Some i => (info_priority i, info_color_relevant i)
         | None => ("low", false)
         end.
Proof.
  unfold keep_step. destruct cands as [[boxes confs] ids].
  destruct (index_of i) as [idx|]; [|discriminate]. cbn [bind].
  destruct (index ids idx) as [class_id|]; [|discriminate]. cbn [bind].
  unfold index at 1.
  destruct (nth_error (classes self) class_id) as [lbl|] eqn:Hl; [|discriminate].
  cbn [bind].
  destruct (index boxes idx) as [[[[bx by_] bw] bh]|]; [|discriminate]. cbn [bind].
  destruct (index confs idx) as [c|]; [|discriminate]. cbn [bind].
  intro H. injection H as <-. eexists. split; [reflexivity|].
  cbn [label bbox priority color_relevant]. split; [|split].
  - eapply nth_error_In; eassumption.
  - lia.
  - unfold dict_get_default. now destruct (dict_get RELEVANT_OBJECTS lbl).
Qed.

Lemma keep_loop_Forall (self : ObjectDetector) (width height : Z)
  (cands : candidates) (P : detection -> Prop) :
  (forall dets dets' idx,
      keep_step self width height cands dets idx = Ok dets' ->
      exists d, dets' = dets ++ [d] /\ P d) ->
  forall (indices : list nms_index) (dets : list detection),
    for_each indices (keep_step self width height cands) [] = Ok dets ->
    Forall P dets.
Proof.
  intros Hstep indices dets.
  apply (for_each_invariant (keep_step self width height cands) (Forall P));
    [|constructor].
  intros s idx s' Hs E. destruct (Hstep s s' idx E) as [d [-> Hd]].
  apply Forall_app. split; [assumption | now constructor].
Qed.

(** What [detect] returns is the sorted list of what the second loop built. *)
Lemma detect_Forall
  (NMSBoxes : list box -> list Q -> Q -> Q -> list nms_index)
  (self : ObjectDetector) (frame : image) (thr : Q) (P : detection -> Prop) :
  (forall cands dets dets' idx,
      keep_step self (Z.of_nat (shape1 frame)) (Z.of_nat (shape0 frame))
        cands dets idx = Ok dets' ->
      exists d, dets' = dets ++ [d] /\ P d) ->
  forall dets, detect NMSBoxes self frame thr = Ok dets -> Forall P dets.
Proof.
  intros Hstep dets. unfold detect.
  destruct (net self) as [forward|].
  - destruct (collect _ _ thr (forward frame)) as [cands|]; [|discriminate].
    cbn [bind]. destruct cands as [[boxes confs] ids].
    destruct (for_each _ _ []) as [kept|] eqn:Hk; [|discriminate].
    cbn [bind]. intro H. injection H as <-.
    apply sorted_asc_Forall.
    eapply keep_loop_Forall; [|exact Hk]. intros. eapply Hstep. eassumption.
  - intro H. injection H as <-. constructor.
Qed.

(** X10.  Every box [detect] returns starts inside the frame and ends
    inside it: x and y are not negative, x + w is at most the frame width and
    y + h at most the frame height. *)
Theorem detect_boxes_within_frame
  (NMSBoxes : list box -> list Q -> Q -> Q -> list nms_index)
  (self : ObjectDetector) (frame : image) (confidence_threshold : Q)
  (detections : list detection) :
  detect NMSBoxes self frame confidence_threshold = Ok detections ->
  Forall (fun d =>
            let '(x, y, w, h) := bbox d in
            0 <= x /\ 0 <= y
            /\ x + w <= Z.of_nat (shape1 frame)
            /\ y + h <= Z.of_nat (shape0 frame))
         detections.
Proof.
  apply detect_Forall. intros cands dets dets' idx E.
  destruct (keep_step_adds _ _ _ _ _ _ _ E) as [d [-> [_ [Hb _]]]].
  exists d. split; [reflexivity | exact Hb].
Qed.

Lemma detect_boxes_within_frame_witness :
  exists detections,
    detect Examples.keep_all Examples.loaded
      (Examples.uniform 8 8 Examples.red) (1 # 2) = Ok detections
    /\ map bbox detections = [(2, 2, 4, 4); (2, 2, 4, 4)]
    /\ Forall (fun d =>
                 let '(x, y, w, h) := bbox d in
                 0 <= x /\ 0 <= y /\ x + w <= 8 /\ y + h <= 8)
              detections.
Proof.
  eexists. split; [vm_compute; reflexivity|]. split; [reflexivity|].
  apply (detect_boxes_within_frame Examples.keep_all Examples.loaded
           (Examples.uniform 8 8 Examples.red) (1 # 2)).
  vm_compute. reflexivity.
Defined.

Lemma relevant_priorities :
  Forall (fun e : string * obj_info =>
            In (info_priority (snd e)) ["critical"; "high"; "medium"; "low"])
         RELEVANT_OBJECTS.
Proof.
  unfold RELEVANT_OBJECTS.
  repeat (apply Forall_cons; [cbn [snd info_priority In]; tauto|]).
  apply Forall_nil.
Qed.

(** X11.  What [detect] returns is ordered by static priority, critical
    first; every label comes from the class list, and every detection
    carries the priority and colour relevance the catalogue gives its label,
    or low and false for a label the catalogue does not list. *)
Theorem detect_sorted_by_priority
  (NMSBoxes : list box -> list Q -> Q -> Q -> list nms_index)
  (self : ObjectDetector) (frame : image) (confidence_threshold : Q)
  (detections : list detection) :
  detect NMSBoxes self frame confidence_threshold = Ok detections ->
  StronglySorted
    (fun a b => priority_order (priority a) <= priority_order (priority b))
    detections
  /\ Forall (fun d =>
               In (label d) (classes self)
               /\ In (priority d) ["critical"; "high"; "medium"; "low"]
               /\ (priority d, color_relevant d)
                  = match dict_get RELEVANT_OBJECTS (label d) with
                    | Some i => (info_priority i, info_color_relevant i)
                    | None => ("low", false)
                    end)
            detections.
Proof.
  intro H. split.
  - unfold detect in H.
    destruct (net self) as [forward|].
    + destruct (collect _ _ confidence_threshold (forward frame)) as [cands|];
        [|discriminate].
      cbn [bind] in H. destruct cands as [[boxes confs] ids].
      destruct (for_each _ _ []) as [kept|]; [|discriminate].
      cbn [bind] in H. injection H as <-.
      pose proof (sorted_asc_sorted
                    (fun d => inject_Z (priority_order (priority d))) kept) as Hs.
      induction Hs as [|d l Hl IH Hd]; constructor; [exact IH|].
      rewrite Forall_forall in *. intros z Hz. rewrite Zle_Qle. now apply Hd.
    + injection H as <-. constructor.
  - revert H. apply detect_Forall. intros cands dets dets' idx E.
    destruct (keep_step_adds _ _ _ _ _ _ _ E) as [d [-> [Hl [_ Hp]]]].
    exists d. split; [reflexivity|]. split; [exact Hl|]. split; [|exact Hp].
    destruct (dict_get RELEVANT_OBJECTS (label d)) as [i|] eqn:Hg.
    + injection Hp as -> _.
      apply dict_get_In_any in Hg.
      pose proof relevant_priorities as Hall. rewrite Forall_forall in Hall.
      exact (Hall _ Hg).
    + injection Hp as -> _. simpl. tauto.
Qed.

Lemma detect_sorted_by_priority_witness :
  exists detections,
    detect Examples.keep_all Examples.loaded
      (Examples.uniform 8 8 Examples.red) (1 # 2) = Ok detections
    /\ StronglySorted
         (fun a b => priority_order (priority a) <= priority_order (priority b))
         detections.
Proof.
  eexists. split; [vm_compute; reflexivity|].
  apply (detect_sorted_by_priority Examples.keep_all Examples.loaded
           (Examples.uniform 8 8 Examples.red) (1 # 2)).
  vm_compute. reflexivity.
Defined.

End PostprocessorFacts.

Section PostprocessorTotal.

Import detector Closed.









(** X21.  When a box is kept and the suppression result is a flat array of
    numpy integers, [detect] raises [IndexError] at the first kept index,
    and the endpoint answers with status 500. *)
Theorem flat_suppression_result_raises
  (NMSBoxes : list box -> list Q -> Q -> Q -> list nms_index)
  (decode_base64_image : string -> result image)
  (self : ObjectDetector) (request : main.DetectionRequest)
  (frame : image) (forward : Net) (cands : candidates)
  (k : nat) (rest : list nms_index) :
  net self = Some forward ->
  decode_base64_image (main.image_b64 request) = Ok frame ->
  collect (Z.of_nat (shape1 frame)) (Z.of_nat (shape0 frame))
    (main.min_confidence request) (forward frame) = Ok cands ->
  NMSBoxes (fst (fst cands)) (snd (fst cands)) (main.min_confidence request)
    (4 # 10) = NpInt k :: rest ->
  detect NMSBoxes self frame (main.min_confidence request) = Raise IndexError
  /\ main.detect_objects NMSBoxes decode_base64_image (Some self) request
     = main.HTTPException 500.
Proof.
  intros Hnet Hdec Hcol Hnms.
  assert (Hdet : detect NMSBoxes self frame (main.min_confidence request)
                 = Raise IndexError).
  { unfold detect. rewrite Hnet, Hcol. cbn [bind].
    destruct cands as [[boxes confs] ids]. cbn [fst snd] in Hnms.
    rewrite Hnms. reflexivity. }
  split; [exact Hdet|].
  unfold main.detect_objects, main.process. rewrite Hdec. cbn [bind].
  destruct (main.parse_cb_type (main.colorblindness_type request));
    [|reflexivity].
  cbn [bind]. now rewrite Hdet.
Qed.

Lemma flat_suppression_result_raises_witness :
  detect Examples.keep_all_flat Examples.loaded
    (Examples.uniform 8 8 Examples.red) (1 # 2) = Raise IndexError
  /\ main.detect_objects Examples.keep_all_flat Examples.decode_red
       (Some Examples.loaded) (Examples.request "protanopia")
     = main.HTTPException 500.
Proof.
  apply (flat_suppression_result_raises Examples.keep_all_flat
           Examples.decode_red Examples.loaded (Examples.request "protanopia")
           (Examples.uniform 8 8 Examples.red) Examples.three_anchors
           ([(2, 2, 4, 4); (2, 2, 4, 4)], [9 # 10; 8 # 10], [9%nat; 11%nat])
           0%nat [NpInt 1]);
    reflexivity.
Defined.

End PostprocessorTotal.

(* ================================================================== *)
(** ** More on the endpoint                                            *)
(* ================================================================== *)

Section EndpointFacts.

Import color_analyzer main Closed.

Lemma lower_ascii_idempotent (c : ascii) : lower_ascii (lower_ascii c) = lower_ascii c.
Proof.
  destruct c as [[] [] [] [] [] [] [] []]; reflexivity.
Qed.

Lemma lower_idempotent (s : string) : lower (lower s) = lower s.
Proof.
  induction s as [|c s IH]; simpl; [reflexivity|].
  now rewrite lower_ascii_idempotent, IH.
Qed.

Lemma of_value_value (t : ColorBlindnessType) : of_value (value t) = Ok t.
Proof. destruct t; reflexivity. Qed.

Lemma of_value_inv (s : string) (t : ColorBlindnessType) :
  of_value s = Ok t -> s = value t.
Proof.
  unfold of_value.
  destruct (find (fun t' => String.eqb (value t') s) members) as [t'|] eqn:F;
    [|discriminate].
  intro H. injection H as ->. apply find_some in F. destruct F as [_ E].
  apply String.eqb_eq in E. now symmetry.
Qed.

(** X13.  Parsing a profile string never raises; it returns the profile
    whose name the string is, whatever the case of its letters, and the
    normal profile for every other string. *)
Theorem parse_cb_type_round_trip :
  (forall t : ColorBlindnessType, parse_cb_type (value t) = Ok t)
  /\ (forall s : string, parse_cb_type (lower s) = parse_cb_type s)
  /\ (forall s : string, exists t, parse_cb_type s = Ok t)
  /\ (forall (s : string) (t : ColorBlindnessType),
        parse_cb_type s = Ok t ->
        lower s = value t \/ (t = NORMAL /\ ~ In (lower s) Spec.profile_names)).
Proof.
  split; [|split; [|split]].
  - intro t. destruct t; reflexivity.
  - intro s. unfold parse_cb_type. now rewrite lower_idempotent.
  - intro s. unfold parse_cb_type.
    destruct (of_value (lower s)) as [t|e] eqn:E.
    + now exists t.
    + exists NORMAL. unfold of_value in E.
      destruct (find _ members); [discriminate|]. injection E as <-. reflexivity.
  - intros s t. unfold parse_cb_type.
    destruct (of_value (lower s)) as [t'|e] eqn:E.
    + intro H. injection H as ->. left. now apply of_value_inv.
    + unfold of_value in E.
      destruct (find (fun t' => String.eqb (value t') (lower s)) members) eqn:F;
        [discriminate|].
      injection E as <-. intro H. injection H as <-. right. split; [reflexivity|].
      intro Hin.
      assert (Hex : exists t', In t' members /\ value t' = lower s).
      { simpl in Hin.
        destruct Hin as [H|[H|[H|[H|[H|[H|[H|[H|[]]]]]]]]];
          [exists NORMAL | exists PROTANOPIA | exists PROTANOMALY
          | exists DEUTERANOPIA | exists DEUTERANOMALY | exists TRITANOPIA
          | exists TRITANOMALY | exists ACHROMATOPSIA];
          (split; [simpl; tauto | exact H]). }
      destruct Hex as [t' [Hm Hv]].
      pose proof (find_none _ _ F t' Hm) as Hn. cbv beta in Hn.
      rewrite Hv, String.eqb_refl in Hn. discriminate.
Qed.

Lemma parse_cb_type_total (s : string) : exists t, parse_cb_type s = Ok t.
Proof.
  unfold parse_cb_type. destruct (of_value (lower s)) as [t|e] eqn:E.
  - now exists t.
  - exists NORMAL. unfold of_value in E.
    destruct (find _ members); [discriminate|]. injection E as <-. reflexivity.
Qed.

(** One turn of the loop, with the object it adds. *)
Lemma object_step_analyzed (frame : image) (cb_type : ColorBlindnessType)
  (st : loop_state) (det : detector.detection) :
  exists o,
    object_step frame cb_type st det
    = Ok (fst st ++ [o], snd st ++ Spec.alert_list [o])
    /\ analyzed frame cb_type det o.
Proof.
  destruct (object_step_ok frame cb_type st det) as [o [Hstep _]].
  exists o. split; [exact Hstep|].
  revert Hstep. destruct st as [objs alerts].
  unfold object_step, analyzed, object_of.
  destruct (detector.bbox det) as [[[bx by_] bw] bh].
  destruct (analyze_region_total (crop frame by_ (by_ + bh) bx (bx + bw)) cb_type)
    as [info [Hinfo _]].
  rewrite Hinfo. cbn [bind fst snd]. intro H.
  exists info. split; [reflexivity|].
  destruct (is_problematic info && _) in H; injection H as H _;
    apply app_inv_head in H; now injection H as <-.
Qed.

Lemma object_loop_analyzed (frame : image) (cb_type : ColorBlindnessType)
  (detections : list detector.detection) :
  forall st : loop_state,
  exists objs,
    for_each detections (object_step frame cb_type) st
    = Ok (fst st ++ objs, snd st ++ Spec.alert_list objs)
    /\ Forall2 (analyzed frame cb_type) detections objs.
Proof.
  induction detections as [|det detections IH]; intro st.
  - exists []. cbn [for_each]. rewrite !app_nil_r. destruct st. split.
    + reflexivity.
    + constructor.
  - destruct (object_step_analyzed frame cb_type st det) as [o [Hstep Ho]].
    cbn [for_each]. rewrite Hstep. cbn [bind].
    destruct (IH (fst st ++ [o], snd st ++ Spec.alert_list [o]))
      as [objs [Hloop Hall]].
    exists (o :: objs). rewrite Hloop. cbn [fst snd]. split.
    + rewrite <- !app_assoc.
      change (o :: objs) with ([o] ++ objs). now rewrite alert_list_app.
    + now constructor.
Qed.

Lemma process_answers
  (NMSBoxes : list detector.box -> list Q -> Q -> Q
              -> list detector.nms_index)
  (decode_base64_image : string -> result image)
  (d : detector.ObjectDetector) (request : DetectionRequest)
  (frame : image) (detections : list detector.detection) :
  decode_base64_image (image_b64 request) = Ok frame ->
  detector.detect NMSBoxes d frame (min_confidence request) = Ok detections ->
  exists r cb_type,
    detect_objects NMSBoxes decode_base64_image (Some d) request = Response r
    /\ parse_cb_type (colorblindness_type request) = Ok cb_type
    /\ success r = true
    /\ frame_width r = shape1 frame
    /\ frame_height r = shape0 frame
    /\ Forall2 (fun det o =>
                  label o = detector.label det
                  /\ confidence o = detector.confidence det
                  /\ (let '(bx, by_, bw, bh) := detector.bbox det in
                      bbox o = {| x := bx; y := by_; width := bw; height := bh |}
                      /\ exists info,
                           analyze_region
                             (crop frame by_ (by_ + bh) bx (bx + bw)) cb_type
                           = Ok info
                           /\ dominant_colors o = color_analyzer.dominant_colors info
                           /\ is_problematic_color o = is_problematic info
                           /\ color_warning o = warning info))
               detections (objects r).
Proof.
  intros Hdec Hdet.
  destruct (parse_cb_type_total (colorblindness_type request)) as [cb_type Hcb].
  destruct (object_loop_analyzed frame cb_type detections ([], []))
    as [objs [Hloop Hall]].
  cbn [fst snd app] in Hloop.
  eexists. exists cb_type. split.
  - unfold detect_objects, process. rewrite Hdec. cbn [bind].
    rewrite Hcb. cbn [bind]. rewrite Hdet. cbn [bind].
    rewrite Hloop. cbn [bind]. reflexivity.
  - cbn [success frame_width frame_height objects].
    split; [exact Hcb|]. repeat (split; [reflexivity|]).
    clear Hloop Hdet. induction Hall as [|det o dets objs' Ho Hall IH]; constructor.
    + unfold analyzed, object_of in Ho.
      destruct (detector.bbox det) as [[[bx by_] bw] bh].
      destruct Ho as [info [Hinfo ->]]. cbn.
      repeat split. exists info. repeat split. exact Hinfo.
    + exact IH.
Qed.

(** X14.  Once the image decodes and [detect] returns, the endpoint answers
    with a response, never an error: colour analysis cannot fail.  The
    response reports success and the frame's dimensions, and holds one object
    per detection, in the same order, with the detection's label, confidence
    and box and the verdict of [analyze_region] on the box's region. *)
Theorem detect_objects_answers
  (NMSBoxes : list detector.box -> list Q -> Q -> Q
              -> list detector.nms_index)
  (decode_base64_image : string -> result image)
  (d : detector.ObjectDetector) (request : DetectionRequest)
  (frame : image) (detections : list detector.detection) :
  decode_base64_image (image_b64 request) = Ok frame ->
  detector.detect NMSBoxes d frame (min_confidence request) = Ok detections ->
  exists r cb_type,
    detect_objects NMSBoxes decode_base64_image (Some d) request = Response r
    /\ parse_cb_type (colorblindness_type request) = Ok cb_type
    /\ success r = true
    /\ frame_width r = shape1 frame
    /\ frame_height r = shape0 frame
    /\ Forall2 (fun det o =>
                  label o = detector.label det
                  /\ confidence o = detector.confidence det
                  /\ (let '(bx, by_, bw, bh) := detector.bbox det in
                      bbox o = {| x := bx; y := by_; width := bw; height := bh |}
                      /\ exists info,
                           analyze_region
                             (crop frame by_ (by_ + bh) bx (bx + bw)) cb_type
                           = Ok info
                           /\ dominant_colors o = color_analyzer.dominant_colors info
                           /\ is_problematic_color o = is_problematic info
                           /\ color_warning o = warning info))
               detections (objects r).
Proof.
  exact (process_answers NMSBoxes decode_base64_image d request frame detections).
Qed.

Lemma detect_objects_answers_witness :
  exists r,
    detect_objects Examples.keep_all Examples.decode_red (Some Examples.loaded)
      (Examples.request "protanopia") = Response r
    /\ map label (objects r) = ["traffic light"; "stop sign"].
Proof.
  destruct (detect_objects_answers Examples.keep_all Examples.decode_red
              Examples.loaded (Examples.request "protanopia")
              (Examples.uniform 8 8 Examples.red)
              match detector.detect Examples.keep_all Examples.loaded
                      (Examples.uniform 8 8 Examples.red) (1 # 2) with
              | Ok l => l
              | Raise _ => []
              end)
    as [r [cb_type [Hr _]]].
  - reflexivity.
  - vm_compute. reflexivity.
  - exists r. split; [exact Hr|].
    assert (E : Response r = Response Examples.red_response).
    { rewrite <- Hr. vm_compute. reflexivity. }
    injection E as ->. reflexivity.
Defined.

(** X15.  The endpoint answers 503 exactly when no detector was set up,
    and 500 only when decoding the image or [detect] raises; every response
    reports success. *)
Theorem detect_objects_statuses
  (NMSBoxes : list detector.box -> list Q -> Q -> Q
              -> list detector.nms_index)
  (decode_base64_image : string -> result image)
  (det : option detector.ObjectDetector) (request : DetectionRequest) :
  match detect_objects NMSBoxes decode_base64_image det request with
  | Response r => success r = true /\ det <> None
  | HTTPException status_code =>
      (status_code = 503 /\ det = None)
      \/ (status_code = 500
          /\ exists d,
               det = Some d
               /\ ((exists e, decode_base64_image (image_b64 request) = Raise e)
                   \/ exists frame e,
                        decode_base64_image (image_b64 request) = Ok frame
                        /\ detector.detect NMSBoxes d frame (min_confidence request)
                           = Raise e))
  end.
Proof.
  destruct det as [d|]; [|left; split; reflexivity].
  destruct (decode_base64_image (image_b64 request)) as [frame|e] eqn:Hdec.
  - destruct (detector.detect NMSBoxes d frame (min_confidence request))
      as [detections|e] eqn:Hdet.
    + destruct (process_answers NMSBoxes decode_base64_image d request
                  frame detections Hdec Hdet) as [r [cb [Hr [_ [Hs _]]]]].
      rewrite Hr. split; [exact Hs | discriminate].
    + unfold detect_objects, process. rewrite Hdec. cbn [bind].
      destruct (parse_cb_type_total (colorblindness_type request)) as [cb ->].
      cbn [bind]. rewrite Hdet. cbn [bind].
      right. split; [reflexivity|]. exists d. split; [reflexivity|].
      right. now exists frame, e.
  - unfold detect_objects, process. rewrite Hdec. cbn [bind].
    right. split; [reflexivity|]. exists d. split; [reflexivity|].
    left. now exists e.
Qed.

End EndpointFacts.

Section EndpointProfiles.

Import color_analyzer main Closed.

(** A response comes from a decoded image and a finished detection. *)
Lemma response_inv
  (NMSBoxes : list detector.box -> list Q -> Q -> Q
              -> list detector.nms_index)
  (decode_base64_image : string -> result image)
  (det : option detector.ObjectDetector) (request : DetectionRequest)
  (r : DetectionResponse) :
  detect_objects NMSBoxes decode_base64_image det request = Response r ->
  exists d frame detections,
    det = Some d
    /\ decode_base64_image (image_b64 request) = Ok frame
    /\ detector.detect NMSBoxes d frame (min_confidence request) = Ok detections.
Proof.
  unfold detect_objects. destruct det as [d|]; [|discriminate].
  unfold process.
  destruct (decode_base64_image (image_b64 request)) as [frame|] eqn:Hdec;
    [|discriminate].
  cbn [bind].
  destruct (parse_cb_type_total (colorblindness_type request)) as [cb ->].
  cbn [bind].
  destruct (detector.detect NMSBoxes d frame (min_confidence request))
    as [detections|] eqn:Hdet; [|discriminate].
  intros _. exists d, frame, detections.
  split; [reflexivity|]. split; [reflexivity | exact Hdet].
Qed.

Lemma analyze_region_normal (roi : image) (info : color_info) :
  analyze_region roi NORMAL = Ok info ->
  is_problematic info = false /\ warning info = None.
Proof.
  unfold analyze_region. destruct (size roi =? 0)%nat.
  - intro H. injection H as <-. split; reflexivity.
  - destruct (detect_colors roi) as [breakdown|]; [|discriminate]. cbn [bind].
    destruct (get_dominant_colors roi 3) as [dominant|]; [|discriminate].
    cbn [bind]. intro H. injection H as <-. split; reflexivity.
Qed.

Lemma parse_normal (s : string) :
  lower s = "normal" \/ ~ In (lower s) Spec.profile_names ->
  parse_cb_type s = Ok NORMAL.
Proof.
  intros [H | H]; [|now apply parse_unknown].
  unfold parse_cb_type. now rewrite H.
Qed.

(** X16.  Under the normal profile, and under any string that names no
    profile, no object is flagged or carries a warning, no object gets the
    priority critical, and the response has no alert message. *)
Theorem normal_profile_raises_no_alert
  (NMSBoxes : list detector.box -> list Q -> Q -> Q
              -> list detector.nms_index)
  (decode_base64_image : string -> result image)
  (det : option detector.ObjectDetector) (request : DetectionRequest)
  (s : string) (r : DetectionResponse) :
  lower s = "normal" \/ ~ In (lower s) Spec.profile_names ->
  detect_objects NMSBoxes decode_base64_image det (Spec.with_profile request s)
  = Response r ->
  alert_message r = None
  /\ Forall (fun o =>
               is_problematic_color o = false
               /\ color_warning o = None
               /\ In (priority o) ["high"; "normal"; "low"])
            (objects r).
Proof.
  intros Hs Hr.
  destruct (response_inv _ _ _ _ _ Hr) as [d [frame [dets [-> [Hdec Hdet]]]]].
  destruct (process_answers _ _ _ _ _ _ Hdec Hdet)
    as [r' [cb [Hr' [Hcb [_ [_ [_ Hall]]]]]]].
  rewrite Hr in Hr'. injection Hr' as <-.
  cbn [Spec.with_profile colorblindness_type] in Hcb.
  rewrite (parse_normal s Hs) in Hcb. injection Hcb as <-.
  destruct (response_shape _ _ _ _ _ Hr) as [Hmsg Hprio].
  assert (Hplain : Forall (fun o => is_problematic_color o = false
                                    /\ color_warning o = None) (objects r)).
  { clear Hr Hmsg Hprio Hdet.
    induction Hall as [|det o dets' objs Ho Hall IH]; [constructor|].
    constructor; [|exact IH].
    destruct Ho as [_ [_ Ho]].
    destruct (detector.bbox det) as [[[bx by_] bw] bh].
    destruct Ho as [_ [info [Hinfo [_ [Hp Hw]]]]].
    apply analyze_region_normal in Hinfo. destruct Hinfo as [H1 H2].
    rewrite Hp, Hw. now split. }
  split.
  - rewrite Hmsg. unfold Spec.alert_message, Spec.alert_list.
    replace (filter Spec.qualifies (objects r)) with (@nil DetectedObject);
      [reflexivity|].
    symmetry. clear Hr Hmsg Hprio Hall.
    induction Hplain as [|o objs [Ho _] _ IH]; [reflexivity|].
    cbn [filter]. unfold Spec.qualifies at 1. rewrite Ho. exact IH.
  - clear Hr Hmsg Hall. rewrite Forall_forall in *. intros o Ho.
    destruct (Hplain o Ho) as [H1 H2]. destruct (Hprio o Ho) as [Hp _].
    split; [exact H1|]. split; [exact H2|].
    rewrite Hp, H1. unfold determine_priority.
    destruct (existsb _ critical_objects); [simpl; tauto|].
    destruct (existsb _ high_objects); simpl; tauto.
Qed.

Lemma normal_profile_raises_no_alert_witness :
  exists r,
    detect_objects Examples.keep_all Examples.decode_red (Some Examples.loaded)
      (Spec.with_profile (Examples.request "protanopia") "Normal") = Response r
    /\ alert_message r = None.
Proof.
  eexists. split; [vm_compute; reflexivity|].
  apply (normal_profile_raises_no_alert Examples.keep_all Examples.decode_red
           (Some Examples.loaded) (Examples.request "protanopia") "Normal").
  - left. reflexivity.
  - vm_compute. reflexivity.
Defined.

(** X17.  Every object of final priority critical is flagged and has its
    entry on the alert list, so a response that holds one has an alert
    message. *)
Theorem critical_objects_are_alerted
  (NMSBoxes : list detector.box -> list Q -> Q -> Q
              -> list detector.nms_index)
  (decode_base64_image : string -> result image)
  (det : option detector.ObjectDetector) (request : DetectionRequest)
  (r : DetectionResponse) :
  detect_objects NMSBoxes decode_base64_image det request = Response r ->
  forall o, In o (objects r) -> priority o = "critical" ->
    is_problematic_color o = true
    /\ In (Spec.alert_entry o) (Spec.alert_list (objects r))
    /\ alert_message r <> None.
Proof.
  intros Hr o Ho Hcrit.
  destruct (response_shape _ _ _ _ _ Hr) as [Hmsg Hprio].
  rewrite Forall_forall in Hprio. destruct (Hprio o Ho) as [Hp _].
  assert (Hflag : is_problematic_color o = true).
  { rewrite Hcrit in Hp. unfold determine_priority in Hp.
    destruct (is_problematic_color o); [reflexivity|].
    destruct (existsb _ critical_objects); [discriminate|].
    destruct (existsb _ high_objects); discriminate. }
  assert (Hin : In (Spec.alert_entry o) (Spec.alert_list (objects r))).
  { unfold Spec.alert_list. apply in_map. apply filter_In. split; [exact Ho|].
    unfold Spec.qualifies. now rewrite Hflag, Hcrit. }
  split; [exact Hflag|]. split; [exact Hin|].
  rewrite Hmsg. unfold Spec.alert_message.
  destruct (Spec.alert_list (objects r)); [contradiction | discriminate].
Qed.

Lemma critical_objects_are_alerted_witness :
  exists o,
    In o (objects Examples.red_response)
    /\ priority o = "critical"
    /\ is_problematic_color o = true.
Proof.
  exists (hd (Closed.object_of
                (detector.Detection "" 0 (0, 0, 0, 0) "" false)
                (ColorInfo [] false None None))
             (objects Examples.red_response)).
  split; [left; reflexivity|]. split; [reflexivity|].
  apply (critical_objects_are_alerted Examples.keep_all Examples.decode_red
           (Some Examples.loaded) (Examples.request "protanopia")
           Examples.red_response).
  - vm_compute. reflexivity.
  - left. reflexivity.
  - reflexivity.
Defined.

(** X18.  With a detector whose model is not loaded the health report says
    so, and a request whose image decodes is answered with a successful
    response that holds no object and no alert. *)
Theorem unloaded_detector_finds_nothing
  (NMSBoxes : list detector.box -> list Q -> Q -> Q
              -> list detector.nms_index)
  (decode_base64_image : string -> result image)
  (d : detector.ObjectDetector) (request : DetectionRequest) (frame : image) :
  detector.is_loaded d = false ->
  decode_base64_image (image_b64 request) = Ok frame ->
  model_loaded (health_check (Some d)) = false
  /\ detect_objects NMSBoxes decode_base64_image (Some d) request
     = Response {| success := true;
                   objects := [];
                   frame_width := shape1 frame;
                   frame_height := shape0 frame;
                   alert_message := None |}.
Proof.
  intros Hl Hdec. split; [exact Hl|].
  unfold detect_objects, process. rewrite Hdec. cbn [bind].
  destruct (parse_cb_type_total (colorblindness_type request)) as [cb ->].
  cbn [bind]. unfold detector.detect. unfold detector.is_loaded in Hl.
  destruct (detector.net d); [discriminate|]. reflexivity.
Qed.

Lemma unloaded_detector_finds_nothing_witness :
  detector.is_loaded (detector.new_detector None) = false
  /\ detect_objects Examples.keep_all Examples.decode_red
       (Some (detector.new_detector None)) (Examples.request "protanopia")
     = Response {| success := true; objects := [];
                   frame_width := 8; frame_height := 8;
                   alert_message := None |}.
Proof.
  split; [reflexivity|].
  apply (unloaded_detector_finds_nothing Examples.keep_all Examples.decode_red
           (detector.new_detector None) (Examples.request "protanopia")
           (Examples.uniform 8 8 Examples.red)); reflexivity.
Defined.

(** X19.  Among the 80 class names of the detector only "traffic light",
    "fire hydrant" and "stop sign" hold a critical keyword and none holds a
    high keyword: those three get critical when flagged and high otherwise,
    every other class gets normal when flagged and low otherwise. *)
Theorem coco_label_priorities (label : string) (is_problematic : bool) :
  In label detector.COCO_CLASSES ->
  determine_priority label is_problematic
  = if str_in label ["traffic light"; "fire hydrant"; "stop sign"]
    then if is_problematic then "critical" else "high"
    else if is_problematic then "normal" else "low".
Proof.
  unfold detector.COCO_CLASSES. cbn [In]. intro H.
  repeat (destruct H as [<- | H]; [destruct is_problematic; reflexivity|]).
  contradiction.
Qed.

Lemma coco_label_priorities_witness :
  In "fire hydrant" detector.COCO_CLASSES
  /\ determine_priority "fire hydrant" true = "critical".
Proof.
  assert (H : In "fire hydrant" detector.COCO_CLASSES)
    by (unfold detector.COCO_CLASSES; cbn [In]; tauto).
  split; [exact H|].
  exact (coco_label_priorities "fire hydrant" true H).
Defined.

(** X20.  For a box that lies within the frame (x, y, x + w and y + h
    neither negative nor past the frame), the region handed to the colour
    analyser has h rows of w pixels, none when w or h is not positive, and
    its pixel (i, j) is the frame's pixel (y + i, x + j); whatever the box,
    the region is never larger than the frame. *)
Theorem region_of_box (frame : image) (bx by_ bw bh : Z) :
  (shape0 (crop frame by_ (by_ + bh) bx (bx + bw)) <= shape0 frame)%nat
  /\ (shape1 (crop frame by_ (by_ + bh) bx (bx + bw)) <= shape1 frame)%nat
  /\ (0 <= bx -> 0 <= by_ ->
      0 <= bx + bw <= Z.of_nat (shape1 frame) ->
      0 <= by_ + bh <= Z.of_nat (shape0 frame) ->
      shape0 (crop frame by_ (by_ + bh) bx (bx + bw)) = Z.to_nat bh
      /\ shape1 (crop frame by_ (by_ + bh) bx (bx + bw)) = Z.to_nat bw
      /\ forall i j,
           (i < Z.to_nat bh)%nat -> (j < Z.to_nat bw)%nat ->
           at_ (crop frame by_ (by_ + bh) bx (bx + bw)) i j
           = at_ frame (Z.to_nat by_ + i) (Z.to_nat bx + j)).
Proof.
  unfold crop, slice_bounds, slice_index. cbn [shape0 shape1 at_ fst snd].
  split; [|split].
  - destruct (by_ <? 0) eqn:E1, (by_ + bh <? 0) eqn:E2;
      try apply Z.ltb_lt in E1; try apply Z.ltb_ge in E1;
      try apply Z.ltb_lt in E2; try apply Z.ltb_ge in E2; cbn [shape0]; lia.
  - destruct (by_ <? 0), (by_ + bh <? 0);
      destruct (bx <? 0) eqn:E1, (bx + bw <? 0) eqn:E2;
      try apply Z.ltb_lt in E1; try apply Z.ltb_ge in E1;
      try apply Z.ltb_lt in E2; try apply Z.ltb_ge in E2; cbn [shape1]; lia.
  - intros Hx Hy Hxw Hyh.
    replace (by_ <? 0) with false by (symmetry; apply Z.ltb_ge; lia).
    replace (by_ + bh <? 0) with false by (symmetry; apply Z.ltb_ge; lia).
    replace (bx <? 0) with false by (symmetry; apply Z.ltb_ge; lia).
    replace (bx + bw <? 0) with false by (symmetry; apply Z.ltb_ge; lia).
    cbn [shape0 shape1 at_].
    split; [lia|]. split; [lia|].
    intros i j Hi Hj. f_equal; lia.
Qed.

End EndpointProfiles.
